(** * Sandboxed Python execution tool: model and verification

    A shallow embedding of [src/app/lib/tools/python-execution-tool.ts]
    and of the parts of [src/app/lib/tools/base-tool.ts] it relies on.

    Conventions of the embedding:
    - a JavaScript string is a [string]: a sequence of code units below 256;
    - [Date.now()] readings and exit codes are integers ([Z]);
    - [null] / [undefined] / [-1] results are [None];
    - asynchronous code is written in a writer-and-exception monad [io]
      whose log records every effect on the outside world, and whose
      outcome says how the promise settles (or that it never does);
    - what the outside world answers (clock, file system, child processes,
      database) is read from an [Env];
    - the tool is modelled twice: [execute] for a [parameters] object that
      keeps to the tool's schema, with a timeout in whole seconds, and
      [executeAny] for every value that [JSON.parse] yields; the two
      agree on the objects of the schema ([executeAny_schema]). *)

From Stdlib Require Import ZArith Ascii String.
From stdpp Require Import base list strings pretty.

Local Open Scope Z_scope.

(** ** JavaScript strings *)

Module Js.

(** The code units below 256 that [\s] and [String.prototype.trim]
    treat as white space: TAB, LF, VT, FF, CR, SPACE and NBSP. *)
Definition isWhiteSpace (c : ascii) : bool :=
  match c with
  | "009" | "010" | "011" | "012" | "013" | " " | "160" => true
  | _ => false
  end%char.

Definition isEmpty (s : string) : bool :=
  match s with EmptyString => true | String _ _ => false end.

(** [s.startsWith(p)] *)
Fixpoint startsWith (s p : string) : bool :=
  match p, s with
  | EmptyString, _ => true
  | String a p', String b s' => if Ascii.eqb a b then startsWith s' p' else false
  | String _ _, EmptyString => false
  end.

(** [s.indexOf(p)], with [None] for [-1]. *)
Fixpoint indexOf (s p : string) : option nat :=
  if startsWith s p then Some 0%nat
  else match s with
       | EmptyString => None
       | String _ s' => S <$> indexOf s' p
       end.

Fixpoint drop (n : nat) (s : string) : string :=
  match n, s with
  | O, _ => s
  | S _, EmptyString => EmptyString
  | S n', String _ s' => drop n' s'
  end.

Fixpoint take (n : nat) (s : string) : string :=
  match n, s with
  | O, _ => EmptyString
  | S _, EmptyString => EmptyString
  | S n', String c s' => String c (take n' s')
  end.

(** [s.substring(a, b)]: both indices are clamped to the length and
    swapped when [a > b]. *)
Definition substring (s : string) (a b : nat) : string :=
  take (Nat.max a b - Nat.min a b) (drop (Nat.min a b) s).

Fixpoint trimStart (s : string) : string :=
  match s with
  | EmptyString => EmptyString
  | String c s' => if isWhiteSpace c then trimStart s' else s
  end.

Fixpoint trimEnd (s : string) : string :=
  match s with
  | EmptyString => EmptyString
  | String c s' =>
      let t := trimEnd s' in
      if isWhiteSpace c && isEmpty t then EmptyString else String c t
  end.

(** [s.trim()] *)
Definition trim (s : string) : string := trimEnd (trimStart s).

(** [s.split(sep)] for a one-unit separator: never the empty array. *)
Fixpoint split (sep : ascii) (s : string) : list string :=
  match s with
  | EmptyString => [EmptyString]
  | String c s' =>
      if Ascii.eqb c sep then EmptyString :: split sep s'
      else match split sep s' with
           | h :: t => String c h :: t
           | [] => [String c EmptyString]
           end
  end.

(** [l.join(sep)] *)
Fixpoint join (sep : string) (l : list string) : string :=
  match l with
  | [] => EmptyString
  | [x] => x
  | x :: rest => x +:+ sep +:+ join sep rest
  end.

(** [x || null] on a string: the empty string is falsy. *)
Definition orNull (s : string) : option string :=
  if isEmpty s then None else Some s.

(** [!x] on a [string | null]. *)
Definition falsy (o : option string) : bool :=
  match o with
  | None => true
  | Some s => isEmpty s
  end.

Definition nl : string := String "010"%char EmptyString.
Definition dq : string := String "034"%char EmptyString.

(** The property names of [Object.prototype], which every object
    inherits; what is found there is a method, or the prototype itself,
    never [undefined]. *)
Definition objectPrototype : list string :=
  ["constructor"; "hasOwnProperty"; "isPrototypeOf"; "propertyIsEnumerable";
   "toLocaleString"; "toString"; "valueOf"; "__proto__";
   "__defineGetter__"; "__defineSetter__"; "__lookupGetter__"; "__lookupSetter__"].

End Js.

(** ** The regular expressions of the denylist

    Every pattern of [containsUnsafeOperations] is a sequence of literal
    text, [\s+] and [\s*]; [test] searches for a match anywhere. *)

Module Regex.

Inductive atom : Type :=
| Lit (s : string)
| WsPlus
| WsStar.

Definition regex : Type := list atom.

Fixpoint stripPrefix (p s : string) : option string :=
  match p, s with
  | EmptyString, _ => Some s
  | String a p', String b s' => if Ascii.eqb a b then stripPrefix p' s' else None
  | String _ _, EmptyString => None
  end.

(** [k] after any number of white-space units. *)
Fixpoint star (k : string -> bool) (s : string) : bool :=
  k s
  || match s with
     | String c s' => Js.isWhiteSpace c && star k s'
     | EmptyString => false
     end.

(** Does the pattern match at the very start of [s]? *)
Fixpoint matchHere (r : regex) : string -> bool :=
  match r with
  | [] => fun _ => true
  | Lit l :: r' =>
      fun s => match stripPrefix l s with
               | Some s' => matchHere r' s'
               | None => false
               end
  | WsStar :: r' => star (matchHere r')
  | WsPlus :: r' =>
      fun s => match s with
               | String c s' => Js.isWhiteSpace c && star (matchHere r') s'
               | EmptyString => false
               end
  end.

(** [pattern.test(s)] *)
Fixpoint test (r : regex) (s : string) : bool :=
  matchHere r s
  || match s with
     | EmptyString => false
     | String _ s' => test r s'
     end.

(** The meaning of a pattern: [matchesPrefix r s] when [r] matches
    some prefix of [s]. *)
Inductive matchesPrefix : regex -> string -> Prop :=
| match_end s :
    matchesPrefix [] s
| match_lit l r s :
    matchesPrefix r s -> matchesPrefix (Lit l :: r) (l +:+ s)
| match_star_none r s :
    matchesPrefix r s -> matchesPrefix (WsStar :: r) s
| match_star_more r c s :
    Js.isWhiteSpace c = true -> matchesPrefix (WsStar :: r) s ->
    matchesPrefix (WsStar :: r) (String c s)
| match_plus r c s :
    Js.isWhiteSpace c = true -> matchesPrefix (WsStar :: r) s ->
    matchesPrefix (WsPlus :: r) (String c s).

(** The pattern matches somewhere in [s]. *)
Definition found (r : regex) (s : string) : Prop :=
  exists before after, s = before +:+ after /\ matchesPrefix r after.

End Regex.

(** ** Output framing: the extraction routines *)

Definition parseOutput (output : string) : string :=
  let startMarker := "AVILINK_OUTPUT_START" in
  let endMarker := "AVILINK_OUTPUT_END" in
  match Js.indexOf output startMarker, Js.indexOf output endMarker with
  | Some startIndex, Some endIndex =>
      Js.trim (Js.substring output (startIndex + String.length startMarker) endIndex)
  | _, _ => Js.trim output
  end.

Definition parseError (error : string) : option string :=
  let startMarker := "AVILINK_ERROR_START" in
  let endMarker := "AVILINK_ERROR_END" in
  match Js.indexOf error startMarker, Js.indexOf error endMarker with
  | Some startIndex, Some endIndex =>
      Some (Js.trim (Js.substring error (startIndex + String.length startMarker) endIndex))
  | _, _ => Js.orNull (Js.trim error)
  end.

(** ** Safety pre-filter *)

Definition unsafePatterns : list Regex.regex :=
  let Lit := Regex.Lit in
  let WsPlus := Regex.WsPlus in
  let WsStar := Regex.WsStar in
  [ [Lit "import"; WsPlus; Lit "os"];
    [Lit "import"; WsPlus; Lit "subprocess"];
    [Lit "import"; WsPlus; Lit "sys"];
    [Lit "from"; WsPlus; Lit "os"];
    [Lit "from"; WsPlus; Lit "subprocess"];
    [Lit "exec"; WsStar; Lit "("];
    [Lit "eval"; WsStar; Lit "("];
    [Lit "__import__"];
    [Lit "open"; WsStar; Lit "("];
    [Lit "file"; WsStar; Lit "("];
    [Lit "input"; WsStar; Lit "("];
    [Lit "raw_input"; WsStar; Lit "("] ].

Definition containsUnsafeOperations (code : string) : bool :=
  existsb (fun pattern => Regex.test pattern code) unsafePatterns.

(** ** Output framing: the wrapper script *)

(** The lines of the Python template before and after the user's code. *)
Definition wrapperHead : list string :=
  [ "";
    "import sys";
    "import traceback";
    "from io import StringIO";
    "import contextlib";
    "";
    "# Redirect stdout";
    "old_stdout = sys.stdout";
    "sys.stdout = StringIO()";
    "";
    "try:";
    "    # User code starts here" ].

Definition wrapperTail : list string :=
  [ "    ";
    "    # Capture output";
    "    output = sys.stdout.getvalue()";
    "    print(" +:+ Js.dq +:+ "AVILINK_OUTPUT_START" +:+ Js.dq +:+ ")";
    "    print(output)";
    "    print(" +:+ Js.dq +:+ "AVILINK_OUTPUT_END" +:+ Js.dq +:+ ")";
    "    ";
    "except Exception as e:";
    "    print(" +:+ Js.dq +:+ "AVILINK_ERROR_START" +:+ Js.dq +:+ ")";
    "    print(f" +:+ Js.dq +:+ "Error: {str(e)}" +:+ Js.dq +:+ ")";
    "    print(" +:+ Js.dq +:+ "AVILINK_ERROR_END" +:+ Js.dq +:+ ")";
    "    traceback.print_exc()";
    "finally:";
    "    sys.stdout = old_stdout";
    "" ].

Definition wrapCodeWithSafety (code : string) : string :=
  Js.join Js.nl
    (wrapperHead
     ++ [Js.join Js.nl (map (fun line => "    " +:+ line) (Js.split "010"%char code))]
     ++ wrapperTail).

(** What the wrapper script does when the interpreter runs it.  The
    user's code is a [block]: a transformer of the interpreter state that
    completes normally or raises an [Exception] (exits and interrupts,
    which [except Exception] does not catch, are left out).  Only what
    the template itself uses is modelled: the binding of [sys.stdout],
    the [StringIO] buffer, and the two real streams of the process. *)
Module Py.

Inductive stream : Type := RealStdout | StringIO.

Record state : Type := mkState {
  sys_stdout : stream;   (* what [sys.stdout] is bound to *)
  buffer : string;       (* contents of the [StringIO] object *)
  stdout : string;       (* bytes written to the process's standard output *)
  stderr : string        (* bytes written to the process's standard error *)
}.

Record exn : Type := mkExn {
  message : string;      (* [str(e)] *)
  trace : string         (* what [traceback.print_exc()] writes *)
}.

Inductive completion : Type :=
| Normal
| Raised (e : exn).

Definition block : Type := state -> completion * state.

Definition initial : state := mkState RealStdout "" "" "".

(** [sys.stdout = target] *)
Definition bind_stdout (target : stream) (st : state) : state :=
  mkState target (buffer st) (stdout st) (stderr st).

(** [sys.stdout.write(text)] *)
Definition write (text : string) (st : state) : state :=
  match sys_stdout st with
  | RealStdout => mkState (sys_stdout st) (buffer st) (stdout st +:+ text) (stderr st)
  | StringIO => mkState (sys_stdout st) (buffer st +:+ text) (stdout st) (stderr st)
  end.

(** [print(text)]: writes to whatever [sys.stdout] is bound to now. *)
Definition print (text : string) (st : state) : state :=
  write (text +:+ Js.nl) st.

(** [traceback.print_exc()]: writes to standard error. *)
Definition print_exc (e : exn) (st : state) : state :=
  mkState (sys_stdout st) (buffer st) (stdout st) (stderr st +:+ trace e).

(** The user statement [print(text)]. *)
Definition user_print (text : string) : block :=
  fun st => (Normal, print text st).

(** The user statement [sys.__stdout__.write(text)]; the template has
    imported [sys]. *)
Definition user_write_real (text : string) : block :=
  fun st => (Normal, mkState (sys_stdout st) (buffer st) (stdout st +:+ text) (stderr st)).

(** A user statement that raises. *)
Definition user_raise (e : exn) : block :=
  fun st => (Raised e, st).

Record exit : Type := mkExit {
  exit_stdout : string;
  exit_stderr : string;
  exit_code : Z
}.

(** The template, statement by statement. *)
Definition runWrapper (user : block) : state :=
  let st := initial in
  let old_stdout := sys_stdout st in
  let st := bind_stdout StringIO st in
  let st :=
    match user st with
    | (Normal, st) =>
        let output := buffer st in
        let st := print "AVILINK_OUTPUT_START" st in
        let st := print output st in
        print "AVILINK_OUTPUT_END" st
    | (Raised e, st) =>
        let st := print "AVILINK_ERROR_START" st in
        let st := print ("Error: " +:+ message e) st in
        let st := print "AVILINK_ERROR_END" st in
        print_exc e st
    end in
  bind_stdout old_stdout st.

(** The script ends after the [finally] clause: exit status zero. *)
Definition runScript (user : block) : exit :=
  let st := runWrapper user in
  mkExit (stdout st) (stderr st) 0.

End Py.

(** ** Data model *)

Module Status.
Inductive t : Type := success | error | timeout.

Definition eqb (a b : t) : bool :=
  match a, b with
  | success, success | error, error | timeout, timeout => true
  | _, _ => false
  end.
End Status.

Module Result.
Record PythonExecutionResult : Type := mk {
  code : string;
  output : string;
  error : option string;
  execution_time : Z;
  status : Status.t
}.
End Result.
Abbreviation PythonExecutionResult := Result.PythonExecutionResult.

(** A property of the [parameters] object: not [in] the object, present
    with the value [undefined], or present with a value of the type that
    the tool's parameter schema declares.  This is the view of a caller
    that keeps to the schema; [execute] itself takes [any], and the
    values that do not fit the schema are the subject of [Any] below. *)
Inductive prop (A : Type) : Type :=
| Absent
| Undefined
| Value (a : A).
Arguments Absent {A}.
Arguments Undefined {A}.
Arguments Value {A} a.

Module Parameters.
Record t : Type := mk {
  code : prop string;
  timeout : prop Z;
  capture_output : prop bool
}.
End Parameters.

Module ToolResult.
Record t : Type := mk {
  success : bool;
  data : PythonExecutionResult;
  error : option string;
  executionTime : Z
}.
End ToolResult.

(** ** Effects *)

Inductive effect : Type :=
| Spawn (command : string) (args : list string)
| Kill (signal : string)
| WriteFile (path data : string)
| Unlink (path : string)
| ConsoleError (message : string)
| UserUpsert (sessionId : string)
| CodeExecutionCreate (record : PythonExecutionResult).

(** How a promise settles. *)
Inductive settled (A : Type) : Type :=
| Resolved (a : A)
| Rejected (message : string)
| Pending.
Arguments Resolved {A} a.
Arguments Rejected {A} message.
Arguments Pending {A}.

Definition io (A : Type) : Type := settled A * list effect.

Definition ret {A} (a : A) : io A := (Resolved a, []).
Definition throw {A} (message : string) : io A := (Rejected message, []).
Definition never {A} : io A := (Pending, []).
Definition perform (e : effect) : io unit := (Resolved tt, [e]).

Definition bind {A B} (m : io A) (k : A -> io B) : io B :=
  match m with
  | (Resolved a, log) => let '(r, log') := k a in (r, log ++ log')
  | (Rejected message, log) => (Rejected message, log)
  | (Pending, log) => (Pending, log)
  end.

(** [try { m } catch (error) { handler(error.message) }] *)
Definition tryCatch {A} (m : io A) (handler : string -> io A) : io A :=
  match m with
  | (Rejected message, log) => let '(r, log') := handler message in (r, log ++ log')
  | other => other
  end.

(** [try { m } finally { cleanup }]: the cleanup runs once [m] has
    settled, either way; its own exception replaces the outcome. *)
Definition tryFinally {A} (m : io A) (cleanup : io unit) : io A :=
  match m with
  | (Pending, log) => (Pending, log)
  | (r, log) =>
      match cleanup with
      | (Resolved _, log') => (r, log ++ log')
      | (Rejected message, log') => (Rejected message, log ++ log')
      | (Pending, log') => (Pending, log ++ log')
      end
  end.

Notation "'let!' x ':=' m 'in' k" := (bind m (fun x => k))
  (at level 10, x name, m at level 100, k at level 200, only parsing).
Notation "'run!' m 'in' k" := (bind m (fun _ => k))
  (at level 10, m at level 100, k at level 200, only parsing).

(** ** The outside world *)

(** A 'data' event carries the chunk as [data.toString()] renders it.
    Each chunk is decoded by itself: a chunk that ends inside a multi-byte
    character gives replacement characters, so the text of a stream is
    the concatenation of the decoded chunks, which need not be the
    decoding of the concatenated bytes. *)
Inductive ProcessEvent : Type :=
| StdoutData (data : string)          (* stdout 'data' *)
| StderrData (data : string)          (* stderr 'data' *)
| TimerFired                          (* the [setTimeout] callback runs *)
| Close (code : option Z)             (* 'close'; [None] is a null exit code *)
| ProcessError (message : string).    (* 'error' *)

Record Env : Type := mkEnv {
  now_measure_start : Z;              (* [Date.now()] in [measureExecutionTime] *)
  now_temp_file : Z;                  (* [Date.now()] in the script's name *)
  now_execution_start : Z;
  now_execution_end : Z;
  now_measure_end : Z;
  mkdir_close : option (option Z);    (* 'close' of [mkdir -p], if it comes *)
  writeFile_error : option string;    (* [None]: the write succeeds *)
  unlink_error : option string;
  python_spawn_error : option string; (* [spawn] itself throws, inside the executor *)
  python_events : list ProcessEvent;  (* events of the interpreter process, in order *)
  upsert_error : option string;
  create_error : option string
}.

(** [fs/promises]: the call is logged, then settles as the world says. *)
Definition writeFile (env : Env) (path data : string) : io unit :=
  run! perform (WriteFile path data) in
  match writeFile_error env with
  | None => ret tt
  | Some message => throw message
  end.

Definition unlink (env : Env) (path : string) : io unit :=
  run! perform (Unlink path) in
  match unlink_error env with
  | None => ret tt
  | Some message => throw message
  end.

(** [path.join(dir, file)] for a directory without a trailing slash and a
    plain file name. *)
Definition join (dir file : string) : string := dir +:+ "/" +:+ file.

(** A [number | null] inside a template literal. *)
Definition showCode (code : option Z) : string :=
  match code with
  | Some n => pretty n
  | None => "null"
  end.

(** ** The process runner *)

Definition ensureTempDir (env : Env) (dir : string) : io unit :=
  run! perform (Spawn "mkdir" ["-p"; dir]) in
  match mkdir_close env with
  | None => never
  | Some code =>
      if bool_decide (code = Some 0) then ret tt
      else throw ("Failed to create directory: " +:+ showCode code)
  end.

(** The mutable variables of the promise executor in [runPythonProcess]. *)
Record Runner : Type := mkRunner {
  output : string;
  error : string;
  timedOut : bool
}.

(** What the 'close' handler resolves the promise with.  The timeout is
    a whole number of seconds; [timeout * 1000] is the product of
    JavaScript as long as it stays below 2^53, beyond which the product
    of JavaScript is rounded.  The caller, [executePythonCode], replaces
    this duration by the time it has measured. *)
Definition onClose (timeout : Z) (st : Runner) (code : option Z) : PythonExecutionResult :=
  if timedOut st then
    Result.mk "" "" (Some "Execution timed out") (timeout * 1000) Status.timeout
  else
    let cleanOutput := parseOutput (output st) in
    let cleanError := parseError (error st) in
    Result.mk "" cleanOutput
      (if Js.falsy cleanError then None else cleanError)
      0
      (if bool_decide (code = Some 0) && Js.falsy cleanError
       then Status.success else Status.error).

(** What the 'error' handler resolves the promise with. *)
Definition onError (message : string) : PythonExecutionResult :=
  Result.mk "" "" (Some ("Process error: " +:+ message)) 0 Status.error.

(** The event loop while the promise is unsettled.  The timer callback
    runs at most once; both settling handlers clear the timer, so events
    after the settling one cannot change the result and are not read. *)
Fixpoint runnerLoop (timeout : Z) (captureOutput : bool) (st : Runner)
    (events : list ProcessEvent) : io PythonExecutionResult :=
  match events with
  | [] => never
  | StdoutData data :: rest =>
      runnerLoop timeout captureOutput
        (if captureOutput then mkRunner (output st +:+ data) (error st) (timedOut st) else st)
        rest
  | StderrData data :: rest =>
      runnerLoop timeout captureOutput
        (if captureOutput then mkRunner (output st) (error st +:+ data) (timedOut st) else st)
        rest
  | TimerFired :: rest =>
      if timedOut st then runnerLoop timeout captureOutput st rest
      else
        run! perform (Kill "SIGKILL") in
        runnerLoop timeout captureOutput (mkRunner (output st) (error st) true) rest
  | Close code :: _ => ret (onClose timeout st code)
  | ProcessError message :: _ => ret (onError message)
  end.

Definition runPythonProcess (env : Env) (scriptPath : string) (timeout : Z)
    (captureOutput : bool) : io PythonExecutionResult :=
  run! perform (Spawn "python3" [scriptPath]) in
  match python_spawn_error env with
  | Some message => throw message
  | None => runnerLoop timeout captureOutput (mkRunner "" "" false) (python_events env)
  end.

Definition tempFile (env : Env) : string :=
  join "/tmp/avilink-python" ("script_" +:+ pretty (now_temp_file env) +:+ ".py").

Definition executePythonCode (env : Env) (code : string) (timeout : Z)
    (captureOutput : bool) : io PythonExecutionResult :=
  let tempDir := "/tmp/avilink-python" in
  let tempFile := join tempDir ("script_" +:+ pretty (now_temp_file env) +:+ ".py") in
  tryFinally
    (tryCatch
       (run! ensureTempDir env tempDir in
        let wrappedCode := wrapCodeWithSafety code in
        run! writeFile env tempFile wrappedCode in
        let executionStart := now_execution_start env in
        let! result := runPythonProcess env tempFile timeout captureOutput in
        let executionTime := now_execution_end env - executionStart in
        ret (Result.mk code (Result.output result) (Result.error result)
               executionTime (Result.status result)))
       (fun message => ret (Result.mk code "" (Some message) 0 Status.error)))
    (tryCatch
       (unlink env tempFile)
       (fun cleanupError => perform (ConsoleError ("Cleanup error: " +:+ cleanupError)))).

(** ** The execution logger

    The record handed to the database is modelled by the fields taken
    from the result; the user id, the language tag and the metadata are
    left out. *)

Definition userUpsert (env : Env) : io unit :=
  run! perform (UserUpsert "default-session") in
  match upsert_error env with
  | None => ret tt
  | Some message => throw message
  end.

Definition codeExecutionCreate (env : Env) (record : PythonExecutionResult) : io unit :=
  run! perform (CodeExecutionCreate record) in
  match create_error env with
  | None => ret tt
  | Some message => throw message
  end.

Definition logExecution (env : Env) (code : string) (result : PythonExecutionResult) : io unit :=
  tryCatch
    (run! userUpsert env in
     codeExecutionCreate env
       (Result.mk code (Result.output result) (Result.error result)
          (Result.execution_time result) (Result.status result)))
    (fun message => perform (ConsoleError ("Failed to log code execution: " +:+ message))).

(** ** The tool *)

(** [!(param in parameters) || parameters[param] === undefined], for an
    object that keeps to the schema: its own properties are among the
    three of the schema, and any other name is found exactly when
    [Object.prototype] has it.  [Any.missing] is the test for every
    value. *)
Definition missing (parameters : Parameters.t) (param : string) : bool :=
  let unset {A} (p : prop A) :=
    match p with Value _ => false | _ => true end in
  if String.eqb param "code" then unset (Parameters.code parameters)
  else if String.eqb param "timeout" then unset (Parameters.timeout parameters)
  else if String.eqb param "capture_output" then unset (Parameters.capture_output parameters)
  else negb (existsb (String.eqb param) Js.objectPrototype).

Record Validation : Type := mkValidation {
  isValid : bool;
  missingParams : option (list string)
}.

Definition validateParameters (parameters : Parameters.t) (required : list string) : Validation :=
  let missingParams := filter (fun param => missing parameters param = true) required in
  mkValidation
    (bool_decide (length missingParams = 0%nat))
    (if bool_decide (0 < length missingParams)%nat then Some missingParams else None).

Definition measureExecutionTime {A} (env : Env) (operation : io A) : io (A * Z) :=
  let startTime := now_measure_start env in
  let! result := operation in
  let executionTime := now_measure_end env - startTime in
  ret (result, executionTime).

(** Destructuring with a default: [const { x = d } = parameters]. *)
Definition withDefault {A} (p : prop A) (d : A) : A :=
  match p with Value a => a | _ => d end.

Definition execute (env : Env) (parameters : Parameters.t) : io ToolResult.t :=
  let! measured :=
    measureExecutionTime env
      (let validation := validateParameters parameters ["code"] in
       if negb (isValid validation) then
         throw ("Missing required parameters: "
                +:+ match missingParams validation with
                    | Some params => Js.join ", " params
                    | None => "undefined"
                    end)
       else
         match Parameters.code parameters with
         | Value code =>
             let timeout := withDefault (Parameters.timeout parameters) 30 in
             let capture_output := withDefault (Parameters.capture_output parameters) true in
             if containsUnsafeOperations code then
               throw "Code contains potentially unsafe operations"
             else
               let! executionResult := executePythonCode env code timeout capture_output in
               run! logExecution env code executionResult in
               ret executionResult
         | _ =>
             (* not reached: validation has found [code] set
                ([validateParameters_code]) *)
             throw "Missing required parameters: code"
         end) in
  let '(result, executionTime) := measured in
  ret (ToolResult.mk
         (Status.eqb (Result.status result) Status.success)
         result
         (if Status.eqb (Result.status result) Status.error
          then (if Js.falsy (Result.error result) then None else Result.error result)
          else None)
         executionTime).

(** ** Vocabulary for the statements *)

(** How the interpreter's run of a script shows up as process events:
    the bytes it wrote to each stream, then the exit. *)
Definition processEvents (run : Py.exit) : list ProcessEvent :=
  (if Js.isEmpty (Py.exit_stdout run) then [] else [StdoutData (Py.exit_stdout run)])
  ++ (if Js.isEmpty (Py.exit_stderr run) then [] else [StderrData (Py.exit_stderr run)])
  ++ [Close (Some (Py.exit_code run))].

(** The events that settle the runner's promise. *)
Definition isSettling (e : ProcessEvent) : bool :=
  match e with
  | Close _ | ProcessError _ => true
  | _ => false
  end.

Definition unsettled (events : list ProcessEvent) : Prop :=
  Forall (fun e => isSettling e = false) events.

(** The run is settled by a 'close' event, and the deadline timer has
    fired before it: no 'close' and no 'error' event comes earlier, and
    the 'close' may carry any exit code, also that of a process which
    was not killed but had exited by itself. *)
Definition killedByDeadline (events : list ProcessEvent) : Prop :=
  exists before code rest,
    events = before ++ Close code :: rest /\ unsettled before /\ TimerFired ∈ before.

(** The run is settled by a 'close' event with [code], and the deadline
    timer has not fired before it: no 'close' and no 'error' event comes
    earlier. *)
Definition exitedWith (events : list ProcessEvent) (code : option Z) : Prop :=
  exists before rest,
    events = before ++ Close code :: rest /\ unsettled before /\ TimerFired ∉ before.

(** The first settling event, if any. *)
Fixpoint settling (events : list ProcessEvent) : option ProcessEvent :=
  match events with
  | [] => None
  | e :: rest => if isSettling e then Some e else settling rest
  end.

(** Did the timer fire before the first settling event? *)
Fixpoint deadlineFired (events : list ProcessEvent) : bool :=
  match events with
  | [] => false
  | TimerFired :: _ => true
  | e :: rest => if isSettling e then false else deadlineFired rest
  end.

(** What the process wrote to standard output / standard error before
    the first settling event. *)
Fixpoint writtenStdout (events : list ProcessEvent) : string :=
  match events with
  | [] => ""
  | StdoutData data :: rest => data +:+ writtenStdout rest
  | e :: rest => if isSettling e then "" else writtenStdout rest
  end.

Fixpoint writtenStderr (events : list ProcessEvent) : string :=
  match events with
  | [] => ""
  | StderrData data :: rest => data +:+ writtenStderr rest
  | e :: rest => if isSettling e then "" else writtenStderr rest
  end.

(** What the runner has accumulated of a stream: nothing unless piped. *)
Definition captured (captureOutput : bool) (written : string) : string :=
  if captureOutput then written else "".

(** The wording of the specification for a kill at the deadline, "the
    process was forcibly killed because the deadline timer fired before
    process exit": the run is settled by a 'close' event without an exit
    code, as a process that a signal has ended leaves it, and the
    deadline timer has fired before it. *)
Definition forciblyKilled (events : list ProcessEvent) : Prop :=
  exists before rest,
    events = before ++ Close None :: rest /\ unsettled before /\ TimerFired ∈ before.

(** The status invariant in the words of the specification, for the
    result [r] of a run with the given events: [timeout] exactly for a
    process killed at the deadline, [success] exactly for exit code zero
    with a parsed error segment that is null, [error] otherwise. *)
Definition statusAsStated (events : list ProcessEvent) (captureOutput : bool)
    (r : PythonExecutionResult) : Prop :=
  let segment := parseError (captured captureOutput (writtenStderr events)) in
  (Result.status r = Status.timeout <-> forciblyKilled events)
  /\ (Result.status r = Status.success <-> exitedWith events (Some 0) /\ segment = None)
  /\ (Result.status r = Status.error <->
      ~ forciblyKilled events /\ ~ (exitedWith events (Some 0) /\ segment = None)).

(** The wording of the specification for a timeout, "the deadline elapses
    before the process exits": the deadline timer fires while the run is
    not settled. *)
Definition deadlineBeforeExit (events : list ProcessEvent) : Prop :=
  exists before rest, events = before ++ TimerFired :: rest /\ unsettled before.

Fixpoint hasNonWhiteSpace (s : string) : bool :=
  match s with
  | EmptyString => false
  | String c s' => negb (Js.isWhiteSpace c) || hasNonWhiteSpace s'
  end.

(** The extraction routine in the words of the specification: look for a
    sentinel pair, a start sentinel and an end sentinel after it, and
    return the trimmed text between the two; without such a pair, return
    the trimmed whole text. *)
Definition extractBetween (startMarker endMarker s : string) : string :=
  match Js.indexOf s startMarker with
  | Some startIndex =>
      let rest := Js.drop (startIndex + String.length startMarker) s in
      match Js.indexOf rest endMarker with
      | Some endIndex => Js.trim (Js.take endIndex rest)
      | None => Js.trim s
      end
  | None => Js.trim s
  end.

(** Does the text hold a sentinel pair, a start sentinel with an end
    sentinel after it? *)
Definition hasSentinelPair (startMarker endMarker s : string) : bool :=
  match Js.indexOf s startMarker with
  | Some startIndex =>
      match Js.indexOf (Js.drop (startIndex + String.length startMarker) s) endMarker with
      | Some _ => true
      | None => false
      end
  | None => false
  end.

(** The same world, with other answers from the database. *)
Definition withPersistence (env : Env) (upsert create : option string) : Env :=
  mkEnv (now_measure_start env) (now_temp_file env) (now_execution_start env)
    (now_execution_end env) (now_measure_end env) (mkdir_close env)
    (writeFile_error env) (unlink_error env) (python_spawn_error env)
    (python_events env) upsert create.

Definition isSpawn (e : effect) : bool :=
  match e with Spawn _ _ => true | _ => false end.

Definition isConsoleError (e : effect) : bool :=
  match e with ConsoleError _ => true | _ => false end.

(** ** Concrete worlds *)

Module Scenario.

(** The source text [print("hello")]. *)
Definition printHello : string := "print(" +:+ Js.dq +:+ "hello" +:+ Js.dq +:+ ")".

(** A world in which everything succeeds and the interpreter behaves
    as given. *)
Definition world (events : list ProcessEvent) : Env :=
  mkEnv 1000 1001 1005 2008 2010 (Some (Some 0)) None None None events None None.

(** The interpreter runs into the deadline and is killed. *)
Definition killed : list ProcessEvent := [TimerFired; Close None].

(** The interpreter exits with status zero after a warning on standard
    error. *)
Definition warned : list ProcessEvent :=
  [StderrData "DeprecationWarning: old"; Close (Some 0)].

(** Standard error holds an empty sentinel pair. *)
Definition emptySegment : list ProcessEvent :=
  [StderrData "AVILINK_ERROR_STARTAVILINK_ERROR_END"; Close (Some 0)].

(** The deadline timer fires, and the interpreter, which has just
    finished by itself, closes with exit code zero. *)
Definition lateExit : list ProcessEvent := [TimerFired; Close (Some 0)].

(** The deadline timer fires, and the kill fails. *)
Definition killFailed : list ProcessEvent :=
  [TimerFired; ProcessError "kill EPERM"; Close None].

(** Standard error holds both error sentinels, the end sentinel first. *)
Definition reversedError : list ProcessEvent :=
  [StderrData "AVILINK_ERROR_END x AVILINK_ERROR_START y"; Close (Some 0)].

(** The database is down. *)
Definition offline (events : list ProcessEvent) : Env :=
  withPersistence (world events) (Some "connection refused") None.

(** The temporary file cannot be written. *)
Definition diskFull : Env :=
  mkEnv 1000 1001 1005 2008 2010 (Some (Some 0)) (Some "ENOSPC") None None [] None None.

Definition request (code : string) : Parameters.t :=
  Parameters.mk (Value code) Absent Absent.

(** A text with both output sentinels, the end sentinel first, and a
    source that writes it to the real standard output. *)
Definition reversed : string :=
  "AVILINK_OUTPUT_ENDAVILINK_OUTPUT_STARThelloAVILINK_OUTPUT_END".

Definition writeReversed : string :=
  "sys.__stdout__.write(" +:+ Js.dq +:+ reversed +:+ Js.dq +:+ ")".

(** The interpreter cannot be started: [spawn] throws. *)
Definition crashing : Env :=
  mkEnv 1000 1001 1005 2008 2010 (Some (Some 0)) None None (Some "spawn E2BIG") [] None None.

(** Worlds for the scenarios above. *)
Definition idle : Env := world [].
Definition prompt : Env := world [Close (Some 0)].
Definition slow : Env := world killed.
Definition noisy : Env := world warned.
Definition framed : Env := world emptySegment.
Definition outlived : Env := world lateExit.
Definition unkillable : Env := world killFailed.
Definition garbled : Env := world reversedError.

End Scenario.

(** ** The rest of [BaseTool] *)

(** The character class of [sanitizeInput]: the angle brackets, the
    double and the single quote, and the ampersand. *)
Definition isSpecial (c : ascii) : bool :=
  match c with
  | "<" | ">" | "034" | "'" | "&" => true
  | _ => false
  end%char.

(** The [entities] table; [None] where the object has no such key. *)
Definition entities (c : ascii) : option string :=
  match c with
  | "<"%char => Some "&lt;"
  | ">"%char => Some "&gt;"
  | "034"%char => Some "&quot;"
  | "'"%char => Some "&#x27;"
  | "&"%char => Some "&amp;"
  | _ => None
  end.

(** The replacement callback: [entities[match] || match]. *)
Definition replacement (c : ascii) : string :=
  match entities c with
  | Some entity => if Js.isEmpty entity then String c "" else entity
  | None => String c ""
  end.

(** [input.replace(class, callback)], with the global flag. *)
Fixpoint sanitizeInput (input : string) : string :=
  match input with
  | EmptyString => EmptyString
  | String c rest =>
      (if isSpecial c then replacement c else String c "") +:+ sanitizeInput rest
  end.

(** Does the code unit occur in the string? *)
Fixpoint occurs (c : ascii) (s : string) : bool :=
  match s with
  | EmptyString => false
  | String x rest => Ascii.eqb x c || occurs c rest
  end.

(** Does the string hold a character of the class? *)
Fixpoint hasSpecial (s : string) : bool :=
  match s with
  | EmptyString => false
  | String c rest => isSpecial c || hasSpecial rest
  end.

Definition isKill (e : effect) : bool :=
  match e with Kill _ => true | _ => false end.

(** ** JavaScript maps

    A [Map] with string keys: the entries in insertion order, one per
    key.  [set] on a key that is present keeps the entry's place. *)
Module JsMap.
Section JsMap.
Context {V : Type}.

Fixpoint set (key : string) (value : V) (m : list (string * V)) : list (string * V) :=
  match m with
  | [] => [(key, value)]
  | (k, v) :: rest =>
      if String.eqb k key then (key, value) :: rest
      else (k, v) :: set key value rest
  end.

Fixpoint get (key : string) (m : list (string * V)) : option V :=
  match m with
  | [] => None
  | (k, v) :: rest => if String.eqb k key then Some v else get key rest
  end.

Definition has (key : string) (m : list (string * V)) : bool :=
  match get key m with
  | Some _ => true
  | None => false
  end.

Definition delete (key : string) (m : list (string * V)) : list (string * V) :=
  List.filter (fun entry => negb (String.eqb (fst entry) key)) m.

Definition keys (m : list (string * V)) : list string := map fst m.

Definition values (m : list (string * V)) : list V := map snd m.

Definition size (m : list (string * V)) : nat := length m.

End JsMap.
End JsMap.

(** ** The tool registry

    The registry only looks at the [name], [description] and
    [parameters] of a tool. *)
Module ToolRegistry.
Section ToolRegistry.
Context {Tool Description Schema : Type}.
Context (name : Tool -> string).
Context (description : Tool -> Description).
Context (parameters : Tool -> Schema).

(** [builtinTools.forEach(tool => this.tools.set(tool.name, tool))] *)
Definition registerBuiltinTools (builtinTools : list Tool) (tools : list (string * Tool))
    : list (string * Tool) :=
  foldl (fun tools tool => JsMap.set (name tool) tool tools) tools builtinTools.

(** The constructor, for the list of built-in tools it instantiates. *)
Definition create (builtinTools : list Tool) : list (string * Tool) :=
  registerBuiltinTools builtinTools [].

Definition getTool (toolName : string) (tools : list (string * Tool)) : option Tool :=
  JsMap.get toolName tools.

Definition getAvailableTools (tools : list (string * Tool))
    : list (string * Description * Schema) :=
  map (fun tool => (name tool, description tool, parameters tool)) (JsMap.values tools).

Definition registerTool (tool : Tool) (tools : list (string * Tool)) : list (string * Tool) :=
  JsMap.set (name tool) tool tools.

Definition unregisterTool (toolName : string) (tools : list (string * Tool))
    : list (string * Tool) :=
  JsMap.delete toolName tools.

Definition listTools (tools : list (string * Tool)) : list string := JsMap.keys tools.

Definition getToolCount (tools : list (string * Tool)) : nat := JsMap.size tools.

Definition hasTool (toolName : string) (tools : list (string * Tool)) : bool :=
  JsMap.has toolName tools.

(** Every entry is stored under the name of its tool. *)
Definition namedByTool (tools : list (string * Tool)) : Prop :=
  forall key tool, JsMap.get key tools = Some tool -> name tool = key.

(** The calls a client can make on a registry, for statements about
    every registry that can be reached. *)
Inductive call : Type :=
| Register (tool : Tool)
| Unregister (toolName : string).

Definition perform_call (tools : list (string * Tool)) (c : call) : list (string * Tool) :=
  match c with
  | Register tool => registerTool tool tools
  | Unregister toolName => unregisterTool toolName tools
  end.

Definition after (builtinTools : list Tool) (calls : list call) : list (string * Tool) :=
  foldl perform_call (create builtinTools) calls.

End ToolRegistry.
End ToolRegistry.

(** ** The tools endpoint

    The route handler that looks a tool up in the registry and calls
    its [execute]. *)

Inductive JsLiteral : Type :=
| JNumber (n : Z)
| JBoolean (b : bool).

Module ParameterSpec.
Record t : Type := mk {
  type : string;
  required : option bool;
  default : option JsLiteral;
  description : string
}.
End ParameterSpec.

Module Tool.
Record t (P R : Type) : Type := mk {
  name : string;
  description : string;
  parameters : list (string * ParameterSpec.t);
  execute : P -> io R
}.
Arguments mk {P R} name description parameters execute.
Arguments name {P R} t.
Arguments description {P R} t.
Arguments parameters {P R} t.
Arguments execute {P R} t.
End Tool.

(** The Python execution tool, in a given world. *)
Definition pythonExecutionTool (env : Env) : Tool.t Parameters.t ToolResult.t :=
  Tool.mk
    "python_execution"
    "Execute Python code securely in a sandboxed environment. Supports data analysis, calculations, and visualization."
    [ ("code", ParameterSpec.mk "string" (Some true) None "Python code to execute");
      ("timeout", ParameterSpec.mk "number" None (Some (JNumber 30)) "Execution timeout in seconds");
      ("capture_output",
        ParameterSpec.mk "boolean" None (Some (JBoolean true)) "Capture stdout and stderr") ]
    (execute env).

Module Request.
Record t (P : Type) : Type := mk {
  toolName : option string;
  parameters : option P;
  conversationId : option string
}.
Arguments mk {P} toolName parameters conversationId.
Arguments toolName {P} t.
Arguments parameters {P} t.
Arguments conversationId {P} t.
End Request.

(** What [request.json()] gives: it throws, or it yields the object. *)
Inductive Body (P : Type) : Type :=
| Malformed (message : string)
| Parsed (request : Request.t P).
Arguments Malformed {P} message.
Arguments Parsed {P} request.

Inductive ResponseBody (R : Type) : Type :=
| ErrorBody (error : string) (details : option string)
| ResultBody (result : R).
Arguments ErrorBody {R} error details.
Arguments ResultBody {R} result.

Module Response.
Record t (R : Type) : Type := mk {
  status : Z;
  body : ResponseBody R
}.
Arguments mk {R} status body.
Arguments status {R} t.
Arguments body {R} t.
End Response.

(** What the handler does to the outside world: what the tool does, and
    the message it stores for the conversation. *)
Inductive routeEffect (P R : Type) : Type :=
| Performed (e : effect)
| MessageCreate (conversationId toolName : string) (parameters : P) (result : R).
Arguments Performed {P R} e.
Arguments MessageCreate {P R} conversationId toolName parameters result.

Module Route.
Section Route.
Context {P R : Type}.

(** The [catch] block of the handler. *)
Definition caught (message : string) (log : list (routeEffect P R))
    : settled (Response.t R) * list (routeEffect P R) :=
  (Resolved (Response.mk 500 (ErrorBody "Failed to execute tool" (Some message))),
   log ++ [Performed (ConsoleError ("Tool execution error: " +:+ message))]).

(** The [POST] handler: [tools] is the registry's map, [messageError]
    what [prisma.message.create] answers ([None]: it succeeds). *)
Definition POST (tools : list (string * Tool.t P R)) (messageError : option string)
    (body : Body P) : settled (Response.t R) * list (routeEffect P R) :=
  match body with
  | Malformed message => caught message []
  | Parsed request =>
      match Request.toolName request, Request.parameters request with
      | Some toolName, Some parameters =>
          if Js.isEmpty toolName then
            (Resolved (Response.mk 400 (ErrorBody "Tool name and parameters are required" None)),
             [])
          else
            match ToolRegistry.getTool toolName tools with
            | None =>
                (Resolved (Response.mk 404
                             (ErrorBody ("Tool '" +:+ toolName +:+ "' not found") None)),
                 [])
            | Some tool =>
                match Tool.execute tool parameters with
                | (Resolved result, log) =>
                    if Js.falsy (Request.conversationId request) then
                      (Resolved (Response.mk 200 (ResultBody result)), map Performed log)
                    else
                      let stored :=
                        map Performed log
                        ++ [MessageCreate (default "" (Request.conversationId request))
                              toolName parameters result] in
                      match messageError with
                      | None => (Resolved (Response.mk 200 (ResultBody result)), stored)
                      | Some message => caught message stored
                      end
                | (Rejected message, log) => caught message (map Performed log)
                | (Pending, log) => (Pending, map Performed log)
                end
            end
      | _, _ =>
          (Resolved (Response.mk 400 (ErrorBody "Tool name and parameters are required" None)),
           [])
      end
  end.

End Route.
End Route.

(** A registry that holds the Python execution tool, and requests to it. *)
Module Sample.

Definition registry (env : Env) : list (string * Tool.t Parameters.t ToolResult.t) :=
  ToolRegistry.create Tool.name [pythonExecutionTool env].

Definition call (toolName : string) (code : string) (conversationId : option string)
    : Request.t Parameters.t :=
  Request.mk (Some toolName) (Some (Scenario.request code)) conversationId.

End Sample.

(** ** Parameters of any type

    [execute] is declared with [parameters: any], and the endpoint hands
    it whatever the body of the request holds.  This part models the call
    for every value that [JSON.parse] yields, and for [undefined]: what
    the [in] test of the validation does with a value that is no object,
    and what the tool does with a [code] that is no string.

    What the JavaScript engine and the database client decide, and not
    the code of the tool, is a parameter of the model: the numbers with
    their conversions, the names that arrays inherit, and the messages
    of the errors that the engine and the client raise. *)

Module Any.

(** An object is the list of its own properties, each name once; its
    prototype is [Object.prototype], that of an array [Array.prototype]. *)
#[local] Unset Elimination Schemes.
Inductive value (number : Type) : Type :=
| Undefined
| Null
| Boolean (b : bool)
| Number (n : number)
| Str (s : string)
| Array (elements : list (value number))
| Object (properties : list (string * value number)).
#[local] Set Elimination Schemes.
Arguments Undefined {number}.
Arguments Null {number}.
Arguments Boolean {number} b.
Arguments Number {number} n.
Arguments Str {number} s.
Arguments Array {number} elements.
Arguments Object {number} properties.

Record Engine (number : Type) : Type := mkEngine {
  numberOfZ : Z -> number;                    (* a whole number *)
  numberToString : number -> string;          (* [String(n)] *)
  numberTruthy : number -> bool;              (* [!!n] *)
  arrayPrototype : string -> bool;            (* the names of [Array.prototype] *)
  inError : string -> value number -> string; (* [key in v], for a [v] that is no object *)
  splitError : value number -> string;        (* [code.split], for a [code] that is no string *)
  primitiveError : string;                    (* an object without a primitive value *)
  clientError : value number -> string        (* the client refuses a [code] that is no string *)
}.
Arguments numberOfZ {number} _ _.
Arguments numberToString {number} _ _.
Arguments numberTruthy {number} _ _.
Arguments arrayPrototype {number} _ _.
Arguments inError {number} _ _ _.
Arguments splitError {number} _ _.
Arguments primitiveError {number} _.
Arguments clientError {number} _ _.

Definition digit (c : ascii) : option N :=
  let n := N_of_ascii c in
  if (48 <=? n)%N && (n <=? 57)%N then Some (n - 48)%N else None.

Fixpoint digits (acc : N) (s : string) : option N :=
  match s with
  | EmptyString => Some acc
  | String c rest =>
      match digit c with
      | Some d => digits (10 * acc + d)%N rest
      | None => None
      end
  end.

(** The array index that a property name denotes: a decimal numeral
    without a leading zero. *)
Definition arrayIndex (key : string) : option N :=
  match key with
  | EmptyString => None
  | String c rest =>
      if Ascii.eqb c "0" then (if Js.isEmpty rest then Some 0%N else None)
      else digits 0 key
  end.

Section Engine.
Context {number : Type} (engine : Engine number).

(** Objects and arrays: the values that [in] accepts on its right. *)
Definition isObject (v : value number) : bool :=
  match v with
  | Array _ | Object _ => true
  | _ => false
  end.

Definition ownProperty (key : string) (v : value number) : option (value number) :=
  match v with
  | Object properties => JsMap.get key properties
  | Array elements =>
      match arrayIndex key with
      | Some index => elements !! N.to_nat index
      | None =>
          if String.eqb key "length"
          then Some (Number (numberOfZ engine (Z.of_nat (length elements))))
          else None
      end
  | _ => None
  end.

(** Is the name found on the prototype chain?  What is found there is a
    method, or the prototype itself: never [undefined]. *)
Definition inherited (key : string) (v : value number) : bool :=
  match v with
  | Object _ => existsb (String.eqb key) Js.objectPrototype
  | Array _ => arrayPrototype engine key || existsb (String.eqb key) Js.objectPrototype
  | _ => false
  end.

(** [!(param in parameters) || parameters[param] === undefined], for a
    [parameters] that is an object or an array. *)
Definition missing (parameters : value number) (param : string) : bool :=
  match ownProperty param parameters with
  | Some Undefined => true
  | Some _ => false
  | None => negb (inherited param parameters)
  end.

(** Reading a property in a destructuring pattern with a default.  The
    names read this way are those of the schema, which no prototype
    holds. *)
Definition property (name : string) (parameters default : value number) : value number :=
  match ownProperty name parameters with
  | Some Undefined | None => default
  | Some v => v
  end.

(** The conversion to a string, as [pattern.test(code)] applies it to its
    argument; the conversion to a number fails for the same values.  An
    object with a [toString] property of its own, which is no function,
    has no primitive value: the conversion throws a TypeError.  An array
    is joined with commas, [null] and [undefined] elements being empty. *)
Fixpoint toString (v : value number) : string + string :=
  match v with
  | Undefined => inr "undefined"
  | Null => inr "null"
  | Boolean b => inr (if b then "true" else "false")
  | Number n => inr (numberToString engine n)
  | Str s => inr s
  | Array elements =>
      (fix join (elements : list (value number)) : string + string :=
         match elements with
         | [] => inr ""
         | element :: rest =>
             let text :=
               match element with
               | Undefined | Null => inr ""
               | _ => toString element
               end in
             match text, rest with
             | inl message, _ => inl message
             | inr first, [] => inr first
             | inr first, _ :: _ =>
                 match join rest with
                 | inl message => inl message
                 | inr others => inr (first +:+ "," +:+ others)
                 end
             end
         end) elements
  | Object properties =>
      if JsMap.has "toString" properties then inl (primitiveError engine)
      else inr "[object Object]"
  end.

(** [v ? a : b] *)
Definition truthy (v : value number) : bool :=
  match v with
  | Undefined | Null => false
  | Boolean b => b
  | Number n => numberTruthy engine n
  | Str s => negb (Js.isEmpty s)
  | Array _ | Object _ => true
  end.

End Engine.
End Any.

(** [validateParameters] for a [parameters] of any type: the callback of
    [filter] runs once for each required name, and for a value that is
    no object its first run throws the TypeError of [in]. *)
Definition validateParametersAny {number} (engine : Any.Engine number)
    (parameters : Any.value number) (required : list string) : string + Validation :=
  if Any.isObject parameters then
    let missingParams := filter (fun param => Any.missing engine parameters param = true) required in
    inr (mkValidation
           (bool_decide (length missingParams = 0%nat))
           (if bool_decide (0 < length missingParams)%nat then Some missingParams else None))
  else
    match required with
    | [] => inr (mkValidation true None)
    | param :: _ => inl (Any.inError engine param parameters)
    end.

Module AnyResult.
Record t (number : Type) : Type := mk {
  code : Any.value number;
  output : string;
  error : option string;
  execution_time : Z;
  status : Status.t
}.
Arguments mk {number} _ _ _ _ _.
Arguments code {number} _.
Arguments output {number} _.
Arguments error {number} _.
Arguments execution_time {number} _.
Arguments status {number} _.

(** A result whose [code] is a string. *)
Definition ofResult {number} (r : PythonExecutionResult) : t number :=
  mk (Any.Str (Result.code r)) (Result.output r) (Result.error r)
    (Result.execution_time r) (Result.status r).
End AnyResult.

Module AnyToolResult.
Record t (number : Type) : Type := mk {
  success : bool;
  data : AnyResult.t number;
  error : option string;
  executionTime : Z
}.
Arguments mk {number} _ _ _ _.
Arguments success {number} _.
Arguments data {number} _.
Arguments error {number} _.
Arguments executionTime {number} _.

Definition ofToolResult {number} (r : ToolResult.t) : t number :=
  mk (ToolResult.success r) (AnyResult.ofResult (ToolResult.data r))
    (ToolResult.error r) (ToolResult.executionTime r).
End AnyToolResult.

(** The same run, with another value. *)
Definition mapIo {A B} (f : A -> B) (m : io A) : io B :=
  (match fst m with
   | Resolved a => Resolved (f a)
   | Rejected message => Rejected message
   | Pending => Pending
   end, snd m).

(** [executePythonCode] for arguments of any type.

    A [code] that is no string makes [wrapCodeWithSafety] throw, after
    the directory helper has run; the catch clause turns the TypeError
    into a result.  With a string, the timeout is multiplied by 1000 in
    the promise executor, after the interpreter has been spawned: a
    timeout without a primitive value makes the executor throw, with the
    same end.  Any other timeout only arms the timer, whose firing is an
    event of the world, and sets the duration of the runner's own
    timeout result, which is overwritten here: the returned value does
    not depend on it ([executePythonCode_timeout]). *)
Definition executePythonCodeAny {number} (engine : Any.Engine number) (env : Env)
    (code timeout captureOutput : Any.value number) : io (AnyResult.t number) :=
  let tempDir := "/tmp/avilink-python" in
  let tempFile := join tempDir ("script_" +:+ pretty (now_temp_file env) +:+ ".py") in
  let failed message := ret (AnyResult.mk code "" (Some message) 0 Status.error) in
  let cleanup :=
    tryCatch
      (unlink env tempFile)
      (fun cleanupError => perform (ConsoleError ("Cleanup error: " +:+ cleanupError))) in
  match code with
  | Any.Str source =>
      match Any.toString engine timeout with
      | inr _ =>
          mapIo AnyResult.ofResult
            (executePythonCode env source 0 (Any.truthy engine captureOutput))
      | inl typeError =>
          tryFinally
            (tryCatch
               (run! ensureTempDir env tempDir in
                run! writeFile env tempFile (wrapCodeWithSafety source) in
                run! perform (Spawn "python3" [tempFile]) in
                match python_spawn_error env with
                | Some message => throw message
                | None => throw typeError
                end)
               failed)
            cleanup
      end
  | _ =>
      tryFinally
        (tryCatch
           (run! ensureTempDir env tempDir in
            throw (Any.splitError engine code))
           failed)
        cleanup
  end.

(** [logExecution] for a [code] of any type: the database client refuses
    a [code] that is no string, after the user row has been written and
    before anything of the record reaches the database. *)
Definition logExecutionAny {number} (engine : Any.Engine number) (env : Env)
    (code : Any.value number) (result : AnyResult.t number) : io unit :=
  match code with
  | Any.Str source =>
      logExecution env source
        (Result.mk source (AnyResult.output result) (AnyResult.error result)
           (AnyResult.execution_time result) (AnyResult.status result))
  | _ =>
      tryCatch
        (run! userUpsert env in
         throw (Any.clientError engine code))
        (fun message => perform (ConsoleError ("Failed to log code execution: " +:+ message)))
  end.

(** [execute] for a [parameters] of any type. *)
Definition executeAny {number} (engine : Any.Engine number) (env : Env)
    (parameters : Any.value number) : io (AnyToolResult.t number) :=
  let! measured :=
    measureExecutionTime env
      (match validateParametersAny engine parameters ["code"] with
       | inl typeError => throw typeError
       | inr validation =>
           if negb (isValid validation) then
             throw ("Missing required parameters: "
                    +:+ match missingParams validation with
                        | Some params => Js.join ", " params
                        | None => "undefined"
                        end)
           else
             let code := Any.property engine "code" parameters Any.Undefined in
             let timeout :=
               Any.property engine "timeout" parameters
                 (Any.Number (Any.numberOfZ engine 30)) in
             let capture_output :=
               Any.property engine "capture_output" parameters (Any.Boolean true) in
             match Any.toString engine code with
             | inl typeError => throw typeError
             | inr text =>
                 if containsUnsafeOperations text then
                   throw "Code contains potentially unsafe operations"
                 else
                   let! executionResult :=
                     executePythonCodeAny engine env code timeout capture_output in
                   run! logExecutionAny engine env code executionResult in
                   ret executionResult
             end
       end) in
  let '(result, executionTime) := measured in
  ret (AnyToolResult.mk
         (Status.eqb (AnyResult.status result) Status.success)
         result
         (if Status.eqb (AnyResult.status result) Status.error
          then (if Js.falsy (AnyResult.error result) then None else AnyResult.error result)
          else None)
         executionTime).

(** A parameters object that keeps to the schema, as a value. *)
Definition ofParameters {number} (engine : Any.Engine number) (parameters : Parameters.t)
    : Any.value number :=
  let field {A} (name : string) (p : prop A) (inject : A -> Any.value number) :=
    match p with
    | Absent => []
    | Undefined => [(name, Any.Undefined)]
    | Value a => [(name, inject a)]
    end in
  Any.Object
    (field "code" (Parameters.code parameters) Any.Str
     ++ field "timeout" (Parameters.timeout parameters)
          (fun seconds => Any.Number (Any.numberOfZ engine seconds))
     ++ field "capture_output" (Parameters.capture_output parameters) Any.Boolean).

(** An engine with whole numbers only, and with the messages of Node.js. *)
Module Node.

Definition show (v : Any.value Z) : string :=
  match v with
  | Any.Undefined => "undefined"
  | Any.Null => "null"
  | Any.Boolean b => if b then "true" else "false"
  | Any.Number n => pretty n
  | Any.Str s => s
  | Any.Array _ => ""
  | Any.Object _ => "[object Object]"
  end.

Definition engine : Any.Engine Z :=
  Any.mkEngine Z
    (fun n => n)
    pretty
    (fun n => negb (n =? 0))
    (fun key => existsb (String.eqb key) ["concat"; "join"; "map"; "push"; "slice"])
    (fun key v => "Cannot use 'in' operator to search for '" +:+ key +:+ "' in " +:+ show v)
    (fun v =>
       match v with
       | Any.Null => "Cannot read properties of null (reading 'split')"
       | Any.Undefined => "Cannot read properties of undefined (reading 'split')"
       | _ => "code.split is not a function"
       end)
    "Cannot convert object to primitive value"
    (fun _ => "Invalid value for argument code").

(** The interpreter is never reached, and the script that was never
    written cannot be deleted. *)
Definition unwritten : Env :=
  mkEnv 1000 1001 1005 2008 2010 (Some (Some 0)) None (Some "ENOENT") None [] None None.

End Node.

(** Membership in a log that is known up to its first entries. *)
Ltac log_member :=
  repeat (apply elem_of_cons; first [by left | right]).

Ltac log_absent H :=
  repeat (apply elem_of_cons in H as [H|H]; [discriminate H|]);
  by apply elem_of_nil in H.

(** * Properties *)

(** ** Strings *)

Lemma append_nil (b : string) : "" +:+ b = b.
Proof. reflexivity. Qed.

Lemma append_cons (x : ascii) (a b : string) : String x a +:+ b = String x (a +:+ b).
Proof. reflexivity. Qed.

Lemma append_assoc (a b c : string) : (a +:+ b) +:+ c = a +:+ (b +:+ c).
Proof.
  induction a as [|x a IH]; [done|].
  by rewrite !append_cons, IH.
Qed.

Lemma append_empty_r (a : string) : a +:+ "" = a.
Proof. induction a as [|x a IH]; [done|]. by rewrite append_cons, IH. Qed.

Lemma length_append (a b : string) :
  String.length (a +:+ b) = (String.length a + String.length b)%nat.
Proof.
  induction a as [|x a IH]; [done|].
  rewrite append_cons. simpl. by rewrite IH.
Qed.

Lemma append_inj_l (a b c : string) : a +:+ b = a +:+ c -> b = c.
Proof.
  induction a as [|x a IH]; [done|].
  rewrite !append_cons. intros [=]. auto.
Qed.

Lemma append_inj_r (a b c : string) : a +:+ c = b +:+ c -> a = b.
Proof.
  revert b. induction a as [|x a IH]; intros [|y b] H; [done|..].
  - apply (f_equal String.length) in H.
    rewrite append_cons, append_nil in H. simpl in H. rewrite length_append in H. lia.
  - apply (f_equal String.length) in H.
    rewrite append_cons, append_nil in H. simpl in H. rewrite length_append in H. lia.
  - rewrite !append_cons in H. injection H as -> H. f_equal. by apply IH.
Qed.

Lemma trimStart_nonWhiteSpace (s : string) :
  hasNonWhiteSpace s = true ->
  exists c t, Js.trimStart s = String c t /\ Js.isWhiteSpace c = false.
Proof.
  induction s as [|c s IH]; simpl; [done|].
  destruct (Js.isWhiteSpace c) eqn:Hc; simpl; [exact IH | eauto].
Qed.

Lemma trim_nonWhiteSpace (s : string) :
  hasNonWhiteSpace s = true -> Js.isEmpty (Js.trim s) = false.
Proof.
  intros H. destruct (trimStart_nonWhiteSpace s H) as (c & t & Heq & Hc).
  unfold Js.trim. rewrite Heq. simpl. by rewrite Hc.
Qed.

Lemma startsWith_append (p t : string) : Js.startsWith (p +:+ t) p = true.
Proof.
  induction p as [|a p IH]; [by destruct t|].
  rewrite append_cons. simpl. by rewrite Ascii.eqb_refl.
Qed.

Lemma startsWith_inv (s p : string) :
  Js.startsWith s p = true -> exists t, s = p +:+ t.
Proof.
  revert s. induction p as [|a p IH]; intros s H.
  - by exists s.
  - destruct s as [|b s]; simpl in H; [done|].
    destruct (Ascii.eqb a b) eqn:Hab; [|done].
    apply Ascii.eqb_eq in Hab as ->.
    destruct (IH s H) as [t ->]. by exists t.
Qed.

Lemma indexOf_unfold (s p : string) :
  Js.indexOf s p =
  if Js.startsWith s p then Some 0%nat
  else match s with
       | EmptyString => None
       | String _ s' => S <$> Js.indexOf s' p
       end.
Proof. by destruct s. Qed.

(** [indexOf] finds an occurrence... *)
Lemma indexOf_Some (s p : string) (i : nat) :
  Js.indexOf s p = Some i ->
  exists before after, s = before +:+ p +:+ after /\ String.length before = i.
Proof.
  revert i. induction s as [|c s IH]; intros i; rewrite indexOf_unfold.
  - destruct (Js.startsWith "" p) eqn:Hp; [|done].
    intros [= <-]. apply startsWith_inv in Hp as [t Ht]. by exists "", t.
  - destruct (Js.startsWith (String c s) p) eqn:Hp.
    + intros [= <-]. apply startsWith_inv in Hp as [t Ht]. by exists "", t.
    + destruct (Js.indexOf s p) as [k|] eqn:Hk; simpl; [|done].
      intros [= <-]. destruct (IH k eq_refl) as (before & after & -> & <-).
      by exists (String c before), after.
Qed.

(** ... and it is the first one. *)
Lemma indexOf_first (before p after : string) :
  exists i, Js.indexOf (before +:+ p +:+ after) p = Some i /\ (i <= String.length before)%nat.
Proof.
  induction before as [|c before IH].
  - exists 0%nat. by rewrite append_nil, indexOf_unfold, startsWith_append.
  - rewrite append_cons, indexOf_unfold.
    destruct (Js.startsWith _ p); [exists 0%nat; split; [done | lia]|].
    destruct IH as (i & -> & Hi). exists (S i). split; [done | simpl; lia].
Qed.

Lemma indexOf_None (s p : string) :
  Js.indexOf s p = None -> forall before after, s <> before +:+ p +:+ after.
Proof.
  intros H before after ->.
  destruct (indexOf_first before p after) as (i & Hi & _). congruence.
Qed.

Lemma drop_append (a b : string) : Js.drop (String.length a) (a +:+ b) = b.
Proof. induction a as [|x a IH]; [by destruct b | by rewrite append_cons]. Qed.

Lemma take_append (a b : string) : Js.take (String.length a) (a +:+ b) = a.
Proof.
  induction a as [|x a IH]; [by destruct b|].
  rewrite append_cons. simpl. by rewrite IH.
Qed.

Lemma substring_ordered (s : string) (a b : nat) :
  (a <= b)%nat -> Js.substring s a b = Js.take (b - a) (Js.drop a s).
Proof.
  intros H. unfold Js.substring.
  by rewrite Nat.max_r, Nat.min_l by done.
Qed.

Lemma substring_swapped (s : string) (a b : nat) :
  (b <= a)%nat -> Js.substring s a b = Js.take (a - b) (Js.drop b s).
Proof.
  intros H. unfold Js.substring.
  by rewrite Nat.max_l, Nat.min_r by done.
Qed.

(** Two ways of cutting one string: the shorter prefix is a prefix of
    the longer one. *)
Lemma append_eq_split (a b c d : string) :
  a +:+ b = c +:+ d -> (String.length a <= String.length c)%nat ->
  exists m, c = a +:+ m /\ b = m +:+ d.
Proof.
  revert c. induction a as [|x a IH]; intros c H Hlen.
  - exists c. by rewrite !append_nil in *.
  - destruct c as [|y c]; simpl in Hlen; [lia|].
    rewrite !append_cons in H. injection H as -> H.
    destruct (IH c H ltac:(lia)) as (m & -> & ->). by exists m.
Qed.

Lemma indexOf_drop (s p : string) (j n : nat) :
  Js.indexOf s p = Some j -> (n <= j)%nat ->
  Js.indexOf (Js.drop n s) p = Some (j - n)%nat.
Proof.
  revert j n. induction s as [|c s IH]; intros j n H Hn.
  - rewrite indexOf_unfold in H. destruct (Js.startsWith "" p) eqn:Hp; [|done].
    injection H as <-. assert (n = 0%nat) as -> by lia.
    cbn [Js.drop]. by rewrite indexOf_unfold, Hp.
  - destruct n as [|n]; [by rewrite Nat.sub_0_r|].
    rewrite indexOf_unfold in H.
    destruct (Js.startsWith (String c s) p); [injection H as <-; lia|].
    destruct (Js.indexOf s p) as [k|] eqn:Hk; simpl in H; [|done].
    injection H as <-. simpl. apply IH; [done | lia].
Qed.

(** The shape shared by [parseOutput] and [parseError]: when the first
    end marker does not start before the first start marker has ended,
    the extracted text is exactly what lies between the two. *)
Lemma substring_between (s startMarker endMarker : string) (i j : nat) :
  Js.indexOf s startMarker = Some i ->
  Js.indexOf s endMarker = Some j ->
  (i + String.length startMarker <= j)%nat ->
  exists before mid after,
    s = before +:+ startMarker +:+ mid +:+ endMarker +:+ after
    /\ String.length before = i
    /\ Js.substring s (i + String.length startMarker) j = mid.
Proof.
  intros Hi Hj Hle.
  destruct (indexOf_Some _ _ _ Hi) as (before & r1 & Hs1 & Hb).
  destruct (indexOf_Some _ _ _ Hj) as (before2 & after & Hs2 & Hb2).
  assert (Hcut : before +:+ startMarker +:+ r1 = before2 +:+ endMarker +:+ after)
    by congruence.
  destruct (append_eq_split _ _ _ _ Hcut ltac:(lia)) as (m & -> & Hm).
  rewrite length_append in Hb2.
  destruct (append_eq_split _ _ _ _ Hm ltac:(lia)) as (mid & -> & ->).
  exists before, mid, after. split; [by rewrite Hs1|]. split; [done|].
  rewrite substring_ordered by done.
  rewrite Hs1, <- Hb, <- length_append, <- append_assoc, drop_append.
  rewrite length_append in Hb2.
  replace (j - String.length (before +:+ startMarker))%nat with (String.length mid)
    by (rewrite length_append; lia).
  apply take_append.
Qed.

(** ** Regular expressions *)

Lemma stripPrefix_spec (l s rest : string) :
  Regex.stripPrefix l s = Some rest <-> s = l +:+ rest.
Proof.
  revert s. induction l as [|a l IH]; intros s.
  - simpl. rewrite append_nil. split; [by intros [= ->] | by intros ->].
  - destruct s as [|b s]; simpl; rewrite append_cons; [done|].
    destruct (Ascii.eqb a b) eqn:Hab.
    + apply Ascii.eqb_eq in Hab as ->. rewrite IH.
      split; [by intros -> | by intros [= ->]].
    + apply Ascii.eqb_neq in Hab. split; [done | intros [= ? ?]; congruence].
Qed.

Lemma star_unfold (k : string -> bool) (s : string) :
  Regex.star k s =
  k s || match s with
         | String c s' => Js.isWhiteSpace c && Regex.star k s'
         | EmptyString => false
         end.
Proof. by destruct s. Qed.

Lemma star_spec (k : string -> bool) (r : Regex.regex) :
  (forall s, k s = true <-> Regex.matchesPrefix r s) ->
  forall s, Regex.star k s = true <-> Regex.matchesPrefix (Regex.WsStar :: r) s.
Proof.
  intros Hk s. split.
  - induction s as [|c s IH]; rewrite star_unfold; intros H.
    + apply orb_true_iff in H as [H | H]; [|done].
      apply Regex.match_star_none. by apply Hk.
    + apply orb_true_iff in H as [H | H].
      * apply Regex.match_star_none. by apply Hk.
      * apply andb_true_iff in H as [Hc H]. apply Regex.match_star_more; auto.
  - intros H. remember (Regex.WsStar :: r) as pattern eqn:Hp.
    induction H as [| | r0 s H _ | r0 c s Hc H IH |]; try discriminate Hp.
    + injection Hp as ->. rewrite star_unfold. apply orb_true_iff. left. by apply Hk.
    + rewrite star_unfold. apply orb_true_iff. right.
      rewrite Hc. simpl. by apply IH.
Qed.

(** The matcher decides the meaning of the pattern. *)
Lemma matchHere_spec (r : Regex.regex) (s : string) :
  Regex.matchHere r s = true <-> Regex.matchesPrefix r s.
Proof.
  revert s. induction r as [|a r IH]; intros s.
  - split; [intros _; constructor | done].
  - destruct a as [l| |]; simpl.
    + split.
      * destruct (Regex.stripPrefix l s) as [rest|] eqn:Hl; [|done].
        apply stripPrefix_spec in Hl as ->. intros H. constructor. by apply IH.
      * intros H. inversion H as [|l0 r0 rest Hrest| | |]; subst.
        assert (Regex.stripPrefix l (l +:+ rest) = Some rest) as ->
          by by apply stripPrefix_spec.
        by apply IH.
    + split.
      * destruct s as [|c s]; [done|]. intros [Hc H]%andb_true_iff.
        apply Regex.match_plus; [done|]. by apply (star_spec _ r IH).
      * intros H. inversion H as [| | | |r0 c rest Hc Hrest]; subst.
        rewrite Hc. simpl. by apply (star_spec _ r IH).
    + apply (star_spec _ r IH).
Qed.

Lemma test_unfold (r : Regex.regex) (s : string) :
  Regex.test r s =
  Regex.matchHere r s
  || match s with
     | EmptyString => false
     | String _ s' => Regex.test r s'
     end.
Proof. by destruct s. Qed.

(** [test] searches every position. *)
Lemma test_spec (r : Regex.regex) (s : string) :
  Regex.test r s = true <-> Regex.found r s.
Proof.
  split.
  - induction s as [|c s IH]; rewrite test_unfold; intros H.
    + apply orb_true_iff in H as [H | H]; [|done].
      exists "", "". split; [done | by apply matchHere_spec].
    + apply orb_true_iff in H as [H | H].
      * exists "", (String c s). split; [done | by apply matchHere_spec].
      * destruct (IH H) as (before & after & -> & Hm).
        by exists (String c before), after.
  - intros (before & after & -> & Hm).
    induction before as [|c before IH]; rewrite test_unfold.
    + rewrite append_nil. apply orb_true_iff. left. by apply matchHere_spec.
    + rewrite append_cons. apply orb_true_iff. by right.
Qed.

Example unsafe_import_os :
  containsUnsafeOperations "import   os; os.system('ls')" = true.
Proof. reflexivity. Qed.

Example safe_division : containsUnsafeOperations "print(1/0)" = false.
Proof. reflexivity. Qed.

(** The pre-filter rejects exactly the texts in which one of the
    denylisted patterns is found. *)
Lemma containsUnsafeOperations_spec (code : string) :
  containsUnsafeOperations code = true
  <-> exists pattern, pattern ∈ unsafePatterns /\ Regex.found pattern code.
Proof.
  unfold containsUnsafeOperations. rewrite existsb_exists.
  split; intros (pattern & Hin & H); exists pattern;
    (split; [by apply list_elem_of_In | by apply test_spec]).
Qed.

(** ** The extraction routines *)

Example parseOutput_framed :
  parseOutput (Js.join Js.nl ["noise"; "AVILINK_OUTPUT_START"; "hello"; ""; "AVILINK_OUTPUT_END"; ""])
  = "hello".
Proof. reflexivity. Qed.

Example parseOutput_unframed : parseOutput "  Traceback: boom  " = "Traceback: boom".
Proof. reflexivity. Qed.

Example parseError_empty : parseError "" = None.
Proof. reflexivity. Qed.

Lemma parseOutput_fallback (output : string) :
  Js.indexOf output "AVILINK_OUTPUT_START" = None
  \/ Js.indexOf output "AVILINK_OUTPUT_END" = None ->
  parseOutput output = Js.trim output.
Proof.
  unfold parseOutput. intros [-> | ->]; [done|].
  by destruct (Js.indexOf output "AVILINK_OUTPUT_START").
Qed.

Lemma parseError_fallback (error : string) :
  Js.indexOf error "AVILINK_ERROR_START" = None
  \/ Js.indexOf error "AVILINK_ERROR_END" = None ->
  parseError error = Js.orNull (Js.trim error).
Proof.
  unfold parseError. intros [-> | ->]; [done|].
  by destruct (Js.indexOf error "AVILINK_ERROR_START").
Qed.

Lemma parseError_blank (error : string) :
  Js.indexOf error "AVILINK_ERROR_START" = None
  \/ Js.indexOf error "AVILINK_ERROR_END" = None ->
  Js.trim error = "" -> parseError error = None.
Proof. intros H Hblank. by rewrite parseError_fallback, Hblank. Qed.

Lemma parseError_stderr_text (error : string) :
  Js.indexOf error "AVILINK_ERROR_START" = None
  \/ Js.indexOf error "AVILINK_ERROR_END" = None ->
  hasNonWhiteSpace error = true ->
  parseError error = Some (Js.trim error) /\ Js.falsy (parseError error) = false.
Proof.
  intros H Hne. rewrite parseError_fallback by done.
  apply trim_nonWhiteSpace in Hne. unfold Js.orNull. rewrite Hne. by simpl.
Qed.

(** With the sentinels in order, the routine returns the trimmed text
    that lies between them. *)
Lemma parseOutput_between (output : string) (i j : nat) :
  Js.indexOf output "AVILINK_OUTPUT_START" = Some i ->
  Js.indexOf output "AVILINK_OUTPUT_END" = Some j ->
  (i + 20 <= j)%nat ->
  exists before mid after,
    output = before +:+ "AVILINK_OUTPUT_START" +:+ mid +:+ "AVILINK_OUTPUT_END" +:+ after
    /\ String.length before = i
    /\ parseOutput output = Js.trim mid.
Proof.
  intros Hi Hj Hle.
  destruct (substring_between output _ _ i j Hi Hj Hle)
    as (before & mid & after & Hs & Hb & Hsub).
  exists before, mid, after. split; [done|]. split; [done|].
  unfold parseOutput. by rewrite Hi, Hj, Hsub.
Qed.

Lemma parseError_between (error : string) (i j : nat) :
  Js.indexOf error "AVILINK_ERROR_START" = Some i ->
  Js.indexOf error "AVILINK_ERROR_END" = Some j ->
  (i + 19 <= j)%nat ->
  exists before mid after,
    error = before +:+ "AVILINK_ERROR_START" +:+ mid +:+ "AVILINK_ERROR_END" +:+ after
    /\ String.length before = i
    /\ parseError error = Some (Js.trim mid).
Proof.
  intros Hi Hj Hle.
  destruct (substring_between error _ _ i j Hi Hj Hle)
    as (before & mid & after & Hs & Hb & Hsub).
  exists before, mid, after. split; [done|]. split; [done|].
  unfold parseError. by rewrite Hi, Hj, Hsub.
Qed.

(** With the sentinels in order, and whenever one is missing altogether,
    the routine does what the specification describes. *)
Lemma parseOutput_extractBetween_ordered (output : string) (i j : nat) :
  Js.indexOf output "AVILINK_OUTPUT_START" = Some i ->
  Js.indexOf output "AVILINK_OUTPUT_END" = Some j ->
  (i + 20 <= j)%nat ->
  parseOutput output = extractBetween "AVILINK_OUTPUT_START" "AVILINK_OUTPUT_END" output.
Proof.
  intros Hi Hj Hle. unfold parseOutput, extractBetween. rewrite Hi, Hj.
  change (String.length "AVILINK_OUTPUT_START") with 20%nat.
  rewrite (indexOf_drop _ _ j (i + 20)) by done.
  by rewrite substring_ordered.
Qed.

Lemma parseOutput_extractBetween_no_start (output : string) :
  Js.indexOf output "AVILINK_OUTPUT_START" = None ->
  parseOutput output = extractBetween "AVILINK_OUTPUT_START" "AVILINK_OUTPUT_END" output.
Proof. intros H. unfold parseOutput, extractBetween. by rewrite H. Qed.

(** ** The [io] monad *)

Lemma fst_bind_perform {A} (e : effect) (k : io A) :
  fst (bind (perform e) (fun _ => k)) = fst k.
Proof. unfold bind, perform. by destruct k. Qed.

Lemma snd_bind_perform {A} (e : effect) (k : io A) :
  snd (bind (perform e) (fun _ => k)) = e :: snd k.
Proof. unfold bind, perform. by destruct k. Qed.

Lemma bind_perform {A} (e : effect) (k : io A) :
  bind (perform e) (fun _ => k) = (fst k, e :: snd k).
Proof. unfold bind, perform. by destruct k. Qed.

(** ** The process runner *)

Lemma settling_app (before : list ProcessEvent) (e : ProcessEvent) (rest : list ProcessEvent) :
  unsettled before -> isSettling e = true -> settling (before ++ e :: rest) = Some e.
Proof.
  intros Hb He. induction Hb as [|x before Hx _ IH]; simpl; [by rewrite He|].
  by rewrite Hx.
Qed.

Lemma settling_split (events : list ProcessEvent) (e : ProcessEvent) :
  settling events = Some e ->
  exists before rest,
    events = before ++ e :: rest /\ unsettled before /\ isSettling e = true.
Proof.
  induction events as [|x events IH]; simpl; [done|].
  destruct (isSettling x) eqn:Hx.
  - intros [= ->]. exists [], events. by repeat split; [constructor|].
  - intros H. destruct (IH H) as (before & rest & -> & Hb & He).
    exists (x :: before), rest. repeat split; [|done]. by constructor.
Qed.

Lemma deadlineFired_app (before : list ProcessEvent) (e : ProcessEvent) (rest : list ProcessEvent) :
  unsettled before -> isSettling e = true ->
  deadlineFired (before ++ e :: rest) = true <-> TimerFired ∈ before.
Proof.
  intros Hb He. induction Hb as [|x before Hx _ IH]; simpl.
  - destruct e; try done; by rewrite elem_of_nil.
  - rewrite elem_of_cons. destruct x; try done; simpl in *; rewrite ?IH; (split; [auto | by intros [?|?]]).
Qed.

Lemma captured_empty (captureOutput : bool) : captured captureOutput "" = "".
Proof. by destruct captureOutput. Qed.

(** The promise of the runner settles at the first 'close' or 'error'
    event, on what has been accumulated until then. *)
Lemma runnerLoop_settles (timeout : Z) (captureOutput : bool) (events : list ProcessEvent) :
  forall st,
    fst (runnerLoop timeout captureOutput st events) =
    match settling events with
    | Some (Close code) =>
        Resolved (onClose timeout
                    (mkRunner
                       (output st +:+ captured captureOutput (writtenStdout events))
                       (error st +:+ captured captureOutput (writtenStderr events))
                       (timedOut st || deadlineFired events))
                    code)
    | Some (ProcessError message) => Resolved (onError message)
    | _ => Pending
    end.
Proof.
  induction events as [|e events IH]; intros st; [done|].
  destruct e as [data|data| |code|message]; simpl.
  - rewrite IH. destruct captureOutput; simpl; [by rewrite append_assoc | done].
  - rewrite IH. destruct captureOutput; simpl; [by rewrite append_assoc | done].
  - destruct (timedOut st) eqn:Ht.
    + rewrite IH, Ht. done.
    + specialize (IH (mkRunner (output st) (error st) true)).
      destruct (runnerLoop _ _ _ events) as [r log']. simpl in *. by rewrite IH.
  - rewrite !captured_empty, !append_empty_r, orb_false_r. by destruct st.
  - done.
Qed.

Lemma runPythonProcess_settles (env : Env) (scriptPath : string) (timeout : Z)
    (captureOutput : bool) :
  fst (runPythonProcess env scriptPath timeout captureOutput) =
  match python_spawn_error env with
  | Some message => Rejected message
  | None =>
      match settling (python_events env) with
      | Some (Close code) =>
          Resolved (onClose timeout
                      (mkRunner
                         (captured captureOutput (writtenStdout (python_events env)))
                         (captured captureOutput (writtenStderr (python_events env)))
                         (deadlineFired (python_events env)))
                      code)
      | Some (ProcessError message) => Resolved (onError message)
      | _ => Pending
      end
  end.
Proof.
  unfold runPythonProcess. rewrite fst_bind_perform.
  destruct (python_spawn_error env); [done|]. by rewrite runnerLoop_settles.
Qed.

Lemma killedByDeadline_fired (events : list ProcessEvent) :
  killedByDeadline events <->
  exists code, settling events = Some (Close code) /\ deadlineFired events = true.
Proof.
  split.
  - intros (before & code & rest & -> & Hb & Hin). exists code.
    split; [by apply settling_app | by apply deadlineFired_app].
  - intros (code & Hs & Hf).
    destruct (settling_split _ _ Hs) as (before & rest & -> & Hb & He).
    exists before, code, rest. split; [done|]. split; [done|].
    by apply (deadlineFired_app before (Close code) rest).
Qed.

Lemma exitedWith_not_fired (events : list ProcessEvent) (code : option Z) :
  exitedWith events code <->
  settling events = Some (Close code) /\ deadlineFired events = false.
Proof.
  split.
  - intros (before & rest & -> & Hb & Hin).
    split; [by apply settling_app|].
    apply not_true_is_false. by rewrite deadlineFired_app.
  - intros (Hs & Hf).
    destruct (settling_split _ _ Hs) as (before & rest & -> & Hb & He).
    exists before, rest. split; [done|]. split; [done|].
    rewrite <- (deadlineFired_app before (Close code) rest) by done.
    by rewrite Hf.
Qed.

(** ** Running a script *)

Lemma executePythonCode_through_runner (env : Env) (code : string) (timeout : Z)
    (captureOutput : bool) (r : PythonExecutionResult) :
  mkdir_close env = Some (Some 0) ->
  writeFile_error env = None ->
  fst (runPythonProcess env (tempFile env) timeout captureOutput) = Resolved r ->
  fst (executePythonCode env code timeout captureOutput) =
  Resolved (Result.mk code (Result.output r) (Result.error r)
              (now_execution_end env - now_execution_start env) (Result.status r)).
Proof.
  intros Hmk Hwr Hrun.
  unfold executePythonCode, ensureTempDir, writeFile, unlink.
  rewrite Hmk, Hwr. fold (tempFile env).
  destruct (runPythonProcess env (tempFile env) timeout captureOutput) as [o log].
  simpl in Hrun. subst o.
  by destruct (unlink_error env).
Qed.

(** The call settles as soon as [mkdir] closes and, when the script could
    be written and the interpreter started, the interpreter closes or
    reports an error; it is never rejected. *)
Lemma executePythonCode_returns (env : Env) (code : string) (timeout : Z)
    (captureOutput : bool) :
  mkdir_close env <> None ->
  (mkdir_close env = Some (Some 0) -> writeFile_error env = None ->
   python_spawn_error env = None -> settling (python_events env) <> None) ->
  exists r, fst (executePythonCode env code timeout captureOutput) = Resolved r.
Proof.
  intros Hmk Hev.
  unfold executePythonCode, ensureTempDir, writeFile, unlink. fold (tempFile env).
  destruct (mkdir_close env) as [exit|] eqn:Emk; [|done].
  case_bool_decide as Hexit.
  - subst exit. destruct (writeFile_error env) as [message|] eqn:Ewr.
    + destruct (unlink_error env); simpl; eauto.
    + pose proof (runPythonProcess_settles env (tempFile env) timeout captureOutput) as Hrun.
      destruct (runPythonProcess env (tempFile env) timeout captureOutput) as [o log].
      simpl in Hrun. subst o.
      destruct (python_spawn_error env) as [message|] eqn:Esp.
      { destruct (unlink_error env); simpl; eauto. }
      destruct (settling (python_events env)) as [[]|] eqn:Es;
        try (by destruct (Hev eq_refl eq_refl eq_refl));
        try (by simpl in Es; apply settling_split in Es as (? & ? & ? & ? & ?));
        destruct (unlink_error env); simpl; eauto.
  - destruct (unlink_error env); simpl; eauto.
Qed.

(** C7. On every exit path of an execution that has reached the point of
    writing the temporary wrapped script (normal completion, runtime
    error, forced kill at the deadline, a write or a spawn that throws),
    the call
    attempts to delete that file before it returns: the deletion is in
    the log after the write, it is followed by nothing but the report of
    a failed deletion, and the call resolves. *)
Theorem temp_file_cleanup (env : Env) (code : string) (timeout : Z) (captureOutput : bool) :
  WriteFile (tempFile env) (wrapCodeWithSafety code)
    ∈ snd (executePythonCode env code timeout captureOutput) ->
  fst (executePythonCode env code timeout captureOutput) <> Pending ->
  exists before after r,
    snd (executePythonCode env code timeout captureOutput)
    = before ++ Unlink (tempFile env) :: after
    /\ WriteFile (tempFile env) (wrapCodeWithSafety code) ∈ before
    /\ Forall (fun e => isConsoleError e = true) after
    /\ fst (executePythonCode env code timeout captureOutput) = Resolved r.
Proof.
  unfold executePythonCode, ensureTempDir, writeFile, unlink. fold (tempFile env).
  generalize (tempFile env) as file. intros file.
  generalize (wrapCodeWithSafety code) as script. intros script.
  destruct (mkdir_close env) as [exit|]; [|by intros _ []].
  case_bool_decide as Hexit.
  - destruct (writeFile_error env) as [message|].
    + intros _ _. destruct (unlink_error env) as [failure|]; simpl.
      * eexists [_; _], [_], _. repeat split; [log_member | by repeat constructor].
      * eexists [_; _], [], _. repeat split; [log_member | by constructor].
    + destruct (runPythonProcess env file timeout captureOutput) as [[r|message|] log].
      * intros _ _. destruct (unlink_error env) as [failure|]; simpl.
        -- eexists (_ :: _ :: log), [_], _.
           rewrite <- !app_assoc. repeat split; [log_member | by repeat constructor].
        -- eexists (_ :: _ :: log), [], _.
           rewrite <- !app_assoc. repeat split; [log_member | by constructor].
      * intros _ _. destruct (unlink_error env) as [failure|]; simpl.
        -- eexists (_ :: _ :: log), [_], _.
           rewrite <- !app_assoc. repeat split; [log_member | by repeat constructor].
        -- eexists (_ :: _ :: log), [], _.
           rewrite <- !app_assoc. repeat split; [log_member | by constructor].
      * by intros _ [].
  - intros Hin _. exfalso. destruct (unlink_error env); simpl in Hin; log_absent Hin.
Qed.

Example cleanup_after_kill :
  snd (executePythonCode Scenario.slow "x = 1" 1 true)
  = [ Spawn "mkdir" ["-p"; "/tmp/avilink-python"];
      WriteFile "/tmp/avilink-python/script_1001.py" (wrapCodeWithSafety "x = 1");
      Spawn "python3" ["/tmp/avilink-python/script_1001.py"];
      Kill "SIGKILL";
      Unlink "/tmp/avilink-python/script_1001.py" ].
Proof. reflexivity. Qed.

Example cleanup_after_spawn_exception :
  executePythonCode Scenario.crashing "x = 1" 30 true
  = (Resolved (Result.mk "x = 1" "" (Some "spawn E2BIG") 0 Status.error),
     [ Spawn "mkdir" ["-p"; "/tmp/avilink-python"];
       WriteFile "/tmp/avilink-python/script_1001.py" (wrapCodeWithSafety "x = 1");
       Spawn "python3" ["/tmp/avilink-python/script_1001.py"];
       Unlink "/tmp/avilink-python/script_1001.py" ]).
Proof. reflexivity. Qed.

Example cleanup_after_write_exception :
  executePythonCode Scenario.diskFull "x = 1" 30 true
  = (Resolved (Result.mk "x = 1" "" (Some "ENOSPC") 0 Status.error),
     [ Spawn "mkdir" ["-p"; "/tmp/avilink-python"];
       WriteFile "/tmp/avilink-python/script_1001.py" (wrapCodeWithSafety "x = 1");
       Unlink "/tmp/avilink-python/script_1001.py" ]).
Proof. reflexivity. Qed.

Lemma temp_file_cleanup_witness :
  exists before after r,
    snd (executePythonCode Scenario.slow Scenario.printHello 1 true)
    = before ++ Unlink (tempFile Scenario.slow) :: after
    /\ WriteFile (tempFile Scenario.slow)
         (wrapCodeWithSafety Scenario.printHello) ∈ before
    /\ Forall (fun e => isConsoleError e = true) after
    /\ fst (executePythonCode Scenario.slow Scenario.printHello 1 true)
       = Resolved r.
Proof.
  apply temp_file_cleanup.
  - apply elem_of_cons. right. apply elem_of_cons. left. reflexivity.
  - discriminate.
Defined.

(** ** The status of a result *)

Lemma falsy_null_or_empty (segment : option string) :
  Js.falsy segment = true <-> segment = None \/ segment = Some "".
Proof.
  destruct segment as [[|c s]|]; simpl; split; try done; auto.
  by intros [|].
Qed.

(** C2, as amended. For every run of the process runner that produces a
    result: the status is [timeout] exactly when the run is settled by a
    'close' event, with whatever exit code, before which the deadline
    timer has fired; it is [success] exactly when the run is settled by
    a 'close' event with exit code zero before which the deadline timer
    has not fired, and the parsed error segment is null or empty; it is
    [error] in every other case.  A 'close' event settles the run when no
    'close' and no 'error' event comes before it. *)
Theorem status_invariant (env : Env) (scriptPath : string) (timeout : Z)
    (captureOutput : bool) (r : PythonExecutionResult) :
  fst (runPythonProcess env scriptPath timeout captureOutput) = Resolved r ->
  let events := python_events env in
  let segment := parseError (captured captureOutput (writtenStderr events)) in
  (Result.status r = Status.timeout <-> killedByDeadline events)
  /\ (Result.status r = Status.success <->
      exitedWith events (Some 0) /\ (segment = None \/ segment = Some ""))
  /\ (Result.status r = Status.error <->
      ~ killedByDeadline events
      /\ ~ (exitedWith events (Some 0) /\ (segment = None \/ segment = Some ""))).
Proof.
  intros Hrun events segment. subst events segment.
  rewrite runPythonProcess_settles in Hrun.
  destruct (python_spawn_error env); [discriminate Hrun|].
  rewrite killedByDeadline_fired, exitedWith_not_fired, <- falsy_null_or_empty.
  destruct (settling (python_events env)) as [[data|data| |code|message]|] eqn:Es;
    try discriminate Hrun.
  - injection Hrun as <-. unfold onClose. simpl.
    destruct (deadlineFired (python_events env)) eqn:Ef; simpl.
    + intuition (try congruence); try (exfalso; eauto; fail); eauto.
    + destruct (Js.falsy (parseError _)) eqn:Ep; simpl;
        case_bool_decide as Hcode; simpl; subst;
        intuition (try congruence); firstorder congruence.
  - injection Hrun as <-. simpl. intuition (try congruence); firstorder congruence.
Qed.

Lemma status_invariant_witness :
  (Status.timeout = Status.timeout <-> killedByDeadline Scenario.killed)
  /\ (Status.timeout = Status.success <->
      exitedWith Scenario.killed (Some 0)
      /\ (parseError (captured true (writtenStderr Scenario.killed)) = None
          \/ parseError (captured true (writtenStderr Scenario.killed)) = Some ""))
  /\ (Status.timeout = Status.error <->
      ~ killedByDeadline Scenario.killed
      /\ ~ (exitedWith Scenario.killed (Some 0)
            /\ (parseError (captured true (writtenStderr Scenario.killed)) = None
                \/ parseError (captured true (writtenStderr Scenario.killed)) = Some ""))).
Proof.
  apply (status_invariant Scenario.slow "script.py" 1 true
           (Result.mk "" "" (Some "Execution timed out") 1000 Status.timeout)).
  reflexivity.
Defined.

(** C2, as stated, fails in both of its clauses.  With an empty sentinel
    pair on standard error and exit code zero the status is [success],
    yet the parsed error segment is the empty string and not null.  And
    when the interpreter has finished by itself and closes with exit code
    zero just after the timer has fired, the status is [timeout],
    although no process was killed. *)
Lemma status_invariant_as_stated_fails :
  (exists r,
     fst (runPythonProcess Scenario.framed "script.py" 30 true) = Resolved r
     /\ Result.status r = Status.success
     /\ parseError (captured true (writtenStderr Scenario.emptySegment)) = Some ""
     /\ ~ statusAsStated Scenario.emptySegment true r)
  /\ (exists r,
        fst (runPythonProcess Scenario.outlived "script.py" 30 true) = Resolved r
        /\ Result.status r = Status.timeout
        /\ ~ forciblyKilled Scenario.lateExit
        /\ ~ statusAsStated Scenario.lateExit true r).
Proof.
  assert (Hlate : ~ forciblyKilled Scenario.lateExit).
  { intros (before & rest & Heq & _ & _).
    by destruct before as [|e1 [|e2 [|e3 before]]]. }
  split.
  - eexists. split; [reflexivity|]. split; [done|]. split; [done|].
    intros (_ & [Hsuccess _] & _). destruct (Hsuccess eq_refl) as [_ Hnull].
    discriminate Hnull.
  - eexists. split; [reflexivity|]. split; [done|]. split; [done|].
    intros ([Htimeout _] & _). by apply Hlate, Htimeout.
Qed.

(** ** Accepted requests *)

Lemma logExecution_resolves (env : Env) (code : string) (result : PythonExecutionResult) :
  fst (logExecution env code result) = Resolved tt.
Proof.
  unfold logExecution, userUpsert, codeExecutionCreate.
  by destruct (upsert_error env), (create_error env).
Qed.

(** What [execute] does with a source text that passes validation and
    the pre-filter. *)
Lemma execute_accepted (env : Env) (parameters : Parameters.t) (code : string) :
  Parameters.code parameters = Value code ->
  containsUnsafeOperations code = false ->
  execute env parameters =
  match executePythonCode env code
          (withDefault (Parameters.timeout parameters) 30)
          (withDefault (Parameters.capture_output parameters) true) with
  | (Resolved r, log) =>
      (Resolved (ToolResult.mk
                   (Status.eqb (Result.status r) Status.success)
                   r
                   (if Status.eqb (Result.status r) Status.error
                    then (if Js.falsy (Result.error r) then None else Result.error r)
                    else None)
                   (now_measure_end env - now_measure_start env)),
       log ++ snd (logExecution env code r))
  | (Rejected message, log) => (Rejected message, log)
  | (Pending, log) => (Pending, log)
  end.
Proof.
  intros Hcode Hsafe.
  unfold execute, measureExecutionTime, validateParameters, missing. simpl.
  rewrite Hcode, Hsafe. simpl.
  destruct (executePythonCode env code _ _) as [[r|message|] log]; [|done..].
  pose proof (logExecution_resolves env code r) as Hlog.
  unfold bind. destruct (logExecution env code r) as [o log']. simpl in *. subst o. simpl.
  by rewrite !app_nil_r.
Qed.

(** ** Deadline *)

Lemma runPythonProcess_timeout (env : Env) (scriptPath : string) (timeout : Z)
    (captureOutput : bool) :
  python_spawn_error env = None ->
  killedByDeadline (python_events env) ->
  fst (runPythonProcess env scriptPath timeout captureOutput)
  = Resolved (Result.mk "" "" (Some "Execution timed out") (timeout * 1000) Status.timeout).
Proof.
  intros Hsp (code & Hs & Hf)%killedByDeadline_fired.
  rewrite runPythonProcess_settles, Hsp, Hs. unfold onClose. simpl. by rewrite Hf.
Qed.

Lemma killed_by_deadline : killedByDeadline Scenario.killed.
Proof.
  exists [TimerFired], None, []. split; [done|]. split.
  - by repeat constructor.
  - apply elem_of_cons. by left.
Qed.

(** C3, as amended. When the interpreter was started and its run is
    settled by a 'close' event before which the deadline timer has fired
    (no 'close' and no 'error' event comes earlier), the result that
    [executePythonCode] returns, and that [execute] hands back as its
    data, has status [timeout], the empty string as output, the error
    text [Execution timed out], the submitted source text, and as its
    duration the time measured between the two clock readings around the
    run, whatever the configured timeout: a whole number of seconds, or
    any other value that can be multiplied by 1000. *)
Theorem timeout_result (env : Env) (parameters : Parameters.t) (code : string) :
  Parameters.code parameters = Value code ->
  containsUnsafeOperations code = false ->
  mkdir_close env = Some (Some 0) ->
  writeFile_error env = None ->
  python_spawn_error env = None ->
  killedByDeadline (python_events env) ->
  let result :=
    Result.mk code "" (Some "Execution timed out")
      (now_execution_end env - now_execution_start env) Status.timeout in
  (forall timeout captureOutput,
     fst (executePythonCode env code timeout captureOutput) = Resolved result)
  /\ (forall number (engine : Any.Engine number) (timeout captureOutput : Any.value number)
        (text : string),
        Any.toString engine timeout = inr text ->
        fst (executePythonCodeAny engine env (Any.Str code) timeout captureOutput)
        = Resolved (AnyResult.ofResult result))
  /\ exists r, fst (execute env parameters) = Resolved r /\ ToolResult.data r = result.
Proof.
  intros Hcode Hsafe Hmk Hwr Hsp Hkill result.
  assert (Hexec : forall timeout captureOutput,
             fst (executePythonCode env code timeout captureOutput) = Resolved result).
  { intros timeout captureOutput.
    pose proof (runPythonProcess_timeout env (tempFile env) timeout captureOutput Hsp Hkill)
      as Hrun.
    by rewrite (executePythonCode_through_runner _ _ _ _ _ Hmk Hwr Hrun). }
  split; [done|]. split.
  { intros number engine timeout captureOutput text Htext.
    unfold executePythonCodeAny, mapIo. by rewrite Htext, Hexec. }
  rewrite (execute_accepted env parameters code Hcode Hsafe).
  specialize (Hexec (withDefault (Parameters.timeout parameters) 30)
                (withDefault (Parameters.capture_output parameters) true)).
  destruct (executePythonCode env code _ _) as [o log]. simpl in Hexec. subst o.
  by eexists.
Qed.

Lemma timeout_result_witness :
  (forall timeout captureOutput,
     fst (executePythonCode Scenario.slow "x = 1" timeout captureOutput)
     = Resolved (Result.mk "x = 1" "" (Some "Execution timed out")
                   (now_execution_end Scenario.slow - now_execution_start Scenario.slow)
                   Status.timeout))
  /\ (forall number (engine : Any.Engine number) (timeout captureOutput : Any.value number)
        (text : string),
        Any.toString engine timeout = inr text ->
        fst (executePythonCodeAny engine Scenario.slow (Any.Str "x = 1") timeout captureOutput)
        = Resolved (AnyResult.ofResult
                      (Result.mk "x = 1" "" (Some "Execution timed out")
                         (now_execution_end Scenario.slow - now_execution_start Scenario.slow)
                         Status.timeout)))
  /\ exists r,
       fst (execute Scenario.slow (Scenario.request "x = 1")) = Resolved r
       /\ ToolResult.data r
          = Result.mk "x = 1" "" (Some "Execution timed out")
              (now_execution_end Scenario.slow - now_execution_start Scenario.slow)
              Status.timeout.
Proof.
  apply (timeout_result Scenario.slow (Scenario.request "x = 1") "x = 1").
  - reflexivity.
  - reflexivity.
  - reflexivity.
  - reflexivity.
  - reflexivity.
  - exact killed_by_deadline.
Defined.

(** C3, as stated, fails twice over.  The deadline of one second elapses
    and the process is killed: the returned duration is the 1003 ms that
    were measured, not the configured 1000 ms.  And the deadline elapses
    but the kill fails with an 'error' event: the status is [error], not
    [timeout]. *)
Lemma timeout_as_stated_fails :
  (deadlineBeforeExit (python_events Scenario.slow)
   /\ exists r,
        fst (executePythonCode Scenario.slow Scenario.printHello 1 true) = Resolved r
        /\ Result.status r = Status.timeout
        /\ Result.execution_time r = 1003
        /\ Result.execution_time r <> 1 * 1000)
  /\ (deadlineBeforeExit (python_events Scenario.unkillable)
      /\ exists r,
           fst (executePythonCode Scenario.unkillable Scenario.printHello 1 true) = Resolved r
           /\ Result.status r = Status.error
           /\ Result.error r = Some "Process error: kill EPERM"
           /\ Result.status r <> Status.timeout).
Proof.
  split.
  - split; [exists [], [Close None]; split; [reflexivity | constructor]|].
    eexists. split; [reflexivity|]. by repeat split.
  - split;
      [exists [], [ProcessError "kill EPERM"; Close None]; split; [reflexivity | constructor]|].
    eexists. split; [reflexivity|]. by repeat split.
Qed.

(** ** Validation and the safety pre-filter *)

(** Validation of [code] passes exactly when the property is set. *)
Lemma validateParameters_code (parameters : Parameters.t) :
  isValid (validateParameters parameters ["code"]) = true
  <-> exists code, Parameters.code parameters = Value code.
Proof.
  unfold validateParameters, missing. simpl.
  destruct (Parameters.code parameters) as [| |code]; simpl; split; try done; eauto.
  - by intros [? ?].
  - by intros [? ?].
Qed.

(** C4, as amended. For every source text that matches one of the
    denylisted patterns, the execute call is rejected with the error
    [Code contains potentially unsafe operations] (it returns no result)
    and has no effect on the outside world: no process is spawned. *)
Theorem unsafe_source_rejected (env : Env) (parameters : Parameters.t) (code : string)
    (pattern : Regex.regex) :
  Parameters.code parameters = Value code ->
  pattern ∈ unsafePatterns ->
  Regex.found pattern code ->
  execute env parameters = (Rejected "Code contains potentially unsafe operations", [])
  /\ Forall (fun e => isSpawn e = false) (snd (execute env parameters)).
Proof.
  intros Hcode Hin Hfound.
  assert (containsUnsafeOperations code = true) as Hunsafe
    by (apply containsUnsafeOperations_spec; eauto).
  assert (execute env parameters
          = (Rejected "Code contains potentially unsafe operations", [])) as ->.
  { unfold execute, measureExecutionTime, validateParameters, missing. simpl.
    by rewrite Hcode, Hunsafe. }
  split; [done | constructor].
Qed.

Lemma unsafe_source_rejected_witness :
  execute Scenario.idle (Scenario.request "import os; os.system('ls')")
  = (Rejected "Code contains potentially unsafe operations", [])
  /\ Forall (fun e => isSpawn e = false)
       (snd (execute Scenario.idle (Scenario.request "import os; os.system('ls')"))).
Proof.
  apply (unsafe_source_rejected Scenario.idle
           (Scenario.request "import os; os.system('ls')") "import os; os.system('ls')"
           [Regex.Lit "import"; Regex.WsPlus; Regex.Lit "os"]).
  - reflexivity.
  - apply elem_of_cons. by left.
  - exists "", "import os; os.system('ls')". split; [reflexivity|].
    apply (Regex.match_lit "import" _ " os; os.system('ls')").
    apply Regex.match_plus; [reflexivity|].
    apply Regex.match_star_none.
    apply (Regex.match_lit "os" _ "; os.system('ls')").
    apply Regex.match_end.
Defined.

(** C4, as stated, fails: for the denylisted source [import os] the call
    returns no result at all, so none with status [error]. *)
Lemma unsafe_source_has_no_result :
  containsUnsafeOperations "import os" = true
  /\ ~ exists r,
       fst (execute Scenario.prompt (Scenario.request "import os"))
       = Resolved r
       /\ Result.status (ToolResult.data r) = Status.error.
Proof.
  split; [reflexivity|]. by intros (r & Hr & _).
Qed.

(** *** Requests without a source text *)

(** The test of the validation for the name [code], which no prototype
    holds: the property must be the object's own, and not [undefined]. *)
Lemma missing_code {number} (engine : Any.Engine number) (parameters : Any.value number) :
  Any.isObject parameters = true ->
  Any.arrayPrototype engine "code" = false ->
  Any.missing engine parameters "code"
  = match Any.ownProperty engine "code" parameters with
    | Some Any.Undefined | None => true
    | Some _ => false
    end.
Proof.
  intros Hobject Hproto. unfold Any.missing.
  destruct parameters as [| |b|n|s|elements|properties]; try discriminate Hobject.
  - simpl. rewrite Hproto. done.
  - simpl. by destruct (JsMap.get "code" properties) as [[]|].
Qed.

(** The validation of the required name [code], for any value. *)
Lemma validateParametersAny_code {number} (engine : Any.Engine number)
    (parameters : Any.value number) :
  Any.arrayPrototype engine "code" = false ->
  validateParametersAny engine parameters ["code"]
  = if Any.isObject parameters then
      match Any.ownProperty engine "code" parameters with
      | Some Any.Undefined | None => inr (mkValidation false (Some ["code"]))
      | Some _ => inr (mkValidation true None)
      end
    else inl (Any.inError engine "code" parameters).
Proof.
  intros Hproto. unfold validateParametersAny.
  destruct (Any.isObject parameters) eqn:Hobject; [|done].
  rewrite filter_cons, filter_nil, (missing_code engine parameters Hobject Hproto).
  by destruct (Any.ownProperty engine "code" parameters) as [[]|].
Qed.

(** C5, as amended. For every [parameters] value that is no object, and
    for every object or array that has no [code] property or has it with
    the value [undefined], the call to [execute] is rejected without any
    effect on the outside world: no process is spawned.  For an object
    or array the error is [Missing required parameters: code]; for a
    value that is no object it is the TypeError of the [in] test.  No
    prototype is taken to hold a property named [code]. *)
Theorem missing_source_rejected {number} (engine : Any.Engine number) (env : Env)
    (parameters : Any.value number) :
  Any.arrayPrototype engine "code" = false ->
  Any.ownProperty engine "code" parameters = None
  \/ Any.ownProperty engine "code" parameters = Some Any.Undefined ->
  executeAny engine env parameters
  = (Rejected (if Any.isObject parameters then "Missing required parameters: code"
               else Any.inError engine "code" parameters), [])
  /\ Forall (fun e => isSpawn e = false) (snd (executeAny engine env parameters)).
Proof.
  intros Hproto Hcode.
  assert (executeAny engine env parameters
          = (Rejected (if Any.isObject parameters then "Missing required parameters: code"
                       else Any.inError engine "code" parameters), [])) as ->.
  { unfold executeAny, measureExecutionTime.
    rewrite (validateParametersAny_code engine parameters Hproto).
    destruct (Any.isObject parameters); [|done].
    by destruct Hcode as [-> | ->]. }
  split; [done | constructor].
Qed.

Lemma missing_source_rejected_witness :
  executeAny Node.engine Scenario.idle (Any.Object [("timeout", Any.Number 5)])
  = (Rejected "Missing required parameters: code", [])
  /\ Forall (fun e => isSpawn e = false)
       (snd (executeAny Node.engine Scenario.idle (Any.Object [("timeout", Any.Number 5)]))).
Proof.
  apply (missing_source_rejected Node.engine Scenario.idle
           (Any.Object [("timeout", Any.Number 5)])).
  - reflexivity.
  - left. reflexivity.
Defined.

(** C5, as stated, fails, for an empty source text and for one that is null.
    An empty source text passes validation and the filter: the directory
    helper and the interpreter are both spawned and the call returns a
    result.  So does a source text that is [null]: the directory helper
    is spawned before the wrapping of the code throws, and the call
    returns a result with status [error]. *)
Lemma missing_or_empty_source_is_executed :
  ((exists r, fst (execute Scenario.prompt (Scenario.request "")) = Resolved r)
   /\ Spawn "python3" [tempFile Scenario.prompt]
        ∈ snd (execute Scenario.prompt (Scenario.request "")))
  /\ ((exists r,
         fst (executeAny Node.engine Scenario.prompt (Any.Object [("code", Any.Str "")]))
         = Resolved r)
      /\ Spawn "python3" [tempFile Scenario.prompt]
           ∈ snd (executeAny Node.engine Scenario.prompt (Any.Object [("code", Any.Str "")])))
  /\ ((exists r,
         fst (executeAny Node.engine Node.unwritten (Any.Object [("code", Any.Null)]))
         = Resolved r
         /\ AnyResult.status (AnyToolResult.data r) = Status.error)
      /\ Spawn "mkdir" ["-p"; "/tmp/avilink-python"]
           ∈ snd (executeAny Node.engine Node.unwritten (Any.Object [("code", Any.Null)]))).
Proof.
  split; [|split].
  - split; [by eexists | log_member].
  - split; [by eexists | log_member].
  - split; [by eexists | log_member].
Qed.

(** ** Extraction *)

(** C6. Both output sentinels occur in the text, the end sentinel first:
    the routine returns the two sentinels themselves, where the text
    between the sentinel pair is [hello].  A source that passes the
    pre-filter makes the interpreter produce this very text. *)
Theorem parseOutput_reversed_sentinels :
  Js.indexOf Scenario.reversed "AVILINK_OUTPUT_START" = Some 18%nat
  /\ Js.indexOf Scenario.reversed "AVILINK_OUTPUT_END" = Some 0%nat
  /\ parseOutput Scenario.reversed = "AVILINK_OUTPUT_ENDAVILINK_OUTPUT_START"
  /\ extractBetween "AVILINK_OUTPUT_START" "AVILINK_OUTPUT_END" Scenario.reversed = "hello"
  /\ containsUnsafeOperations Scenario.writeReversed = false
  /\ fst (execute
            (Scenario.world
               (processEvents (Py.runScript (Py.user_write_real Scenario.reversed))))
            (Scenario.request Scenario.writeReversed))
     = Resolved (ToolResult.mk true
                   (Result.mk Scenario.writeReversed
                      "AVILINK_OUTPUT_ENDAVILINK_OUTPUT_START" None 1003 Status.success)
                   None 1010).
Proof. by repeat split. Qed.

(** ** The execution logger *)

(** What [logExecution] does, whatever the database answers: it always
    resolves, and a persistence error ends up on [console.error]. *)
Lemma logExecution_isolated (env : Env) (upsert create : option string)
    (code : string) (result : PythonExecutionResult) :
  logExecution (withPersistence env upsert create) code result
  = (Resolved tt,
     UserUpsert "default-session"
     :: match upsert with
        | Some message => [ConsoleError ("Failed to log code execution: " +:+ message)]
        | None =>
            CodeExecutionCreate
              (Result.mk code (Result.output result) (Result.error result)
                 (Result.execution_time result) (Result.status result))
            :: match create with
               | Some message =>
                   [ConsoleError ("Failed to log code execution: " +:+ message)]
               | None => []
               end
        end).
Proof. by destruct upsert, create. Qed.

Lemma executePythonCode_withPersistence (env : Env) (upsert create : option string)
    (code : string) (timeout : Z) (captureOutput : bool) :
  executePythonCode (withPersistence env upsert create) code timeout captureOutput
  = executePythonCode env code timeout captureOutput.
Proof. reflexivity. Qed.

Example database_offline :
  fst (execute (Scenario.offline [Close (Some 0)]) (Scenario.request "x = 1"))
  = fst (execute Scenario.prompt (Scenario.request "x = 1"))
  /\ ConsoleError "Failed to log code execution: connection refused"
     ∈ snd (execute (Scenario.offline [Close (Some 0)]) (Scenario.request "x = 1")).
Proof. split; [reflexivity | log_member]. Qed.

(** C8. Whatever the persistence calls answer, [logExecution] resolves
    and [execute] settles exactly as it does when logging succeeds: same
    result, or same rejection.  A persistence error only shows as a
    [console.error] entry in the log of effects. *)
Theorem logging_failure_isolated (env : Env) (parameters : Parameters.t)
    (upsert create : option string) :
  fst (execute (withPersistence env upsert create) parameters)
  = fst (execute (withPersistence env None None) parameters)
  /\ (forall code result,
        fst (logExecution (withPersistence env upsert create) code result) = Resolved tt)
  /\ (forall code result,
        filter (fun e => isConsoleError e = false)
          (snd (logExecution (withPersistence env upsert create) code result))
        `prefix_of`
        snd (logExecution (withPersistence env None None) code result))
  /\ (forall message code result,
        ConsoleError ("Failed to log code execution: " +:+ message)
        ∈ snd (logExecution (withPersistence env (Some message) create) code result))
  /\ (forall message code result,
        ConsoleError ("Failed to log code execution: " +:+ message)
        ∈ snd (logExecution (withPersistence env None (Some message)) code result)).
Proof.
  split; [|split; [|split; [|split]]];
    [| | |intros message code result; rewrite logExecution_isolated; log_member..].
  - unfold execute, measureExecutionTime.
    destruct (isValid (validateParameters parameters ["code"])); [|done]. simpl.
    destruct (Parameters.code parameters) as [| |code]; [done..|].
    destruct (containsUnsafeOperations code); [done|].
    rewrite !executePythonCode_withPersistence.
    destruct (executePythonCode env code _ _) as [[r|message|] log]; [|done..].
    unfold bind at 3 6. rewrite !logExecution_isolated.
    by destruct upsert, create.
  - intros code result. by rewrite logExecution_isolated.
  - intros code result. rewrite !logExecution_isolated.
    destruct upsert, create; simpl.
    + by exists [CodeExecutionCreate (Result.mk code (Result.output result)
        (Result.error result) (Result.execution_time result) (Result.status result))].
    + by exists [CodeExecutionCreate (Result.mk code (Result.output result)
        (Result.error result) (Result.execution_time result) (Result.status result))].
    + by exists [].
    + by exists [].
Qed.

(** ** The temporary script *)

(** Two invocations get different script paths exactly when they read
    different clock values for the name. *)
Lemma tempFile_distinct (env1 env2 : Env) :
  tempFile env1 = tempFile env2 <-> now_temp_file env1 = now_temp_file env2.
Proof.
  unfold tempFile, join. split; [|by intros ->].
  intros H. do 3 apply append_inj_l in H.
  apply append_inj_r in H. by apply (inj pretty) in H.
Qed.

(** C9. Two invocations with different source texts that read the same
    millisecond from the clock: both write their wrapped script to one
    and the same path. *)
Theorem temp_file_collision :
  now_temp_file Scenario.prompt = now_temp_file Scenario.slow
  /\ wrapCodeWithSafety "a = 1" <> wrapCodeWithSafety "b = 2"
  /\ WriteFile "/tmp/avilink-python/script_1001.py" (wrapCodeWithSafety "a = 1")
       ∈ snd (executePythonCode Scenario.prompt "a = 1" 30 true)
  /\ WriteFile "/tmp/avilink-python/script_1001.py" (wrapCodeWithSafety "b = 2")
       ∈ snd (executePythonCode Scenario.slow "b = 2" 30 true).
Proof.
  split; [reflexivity|]. split; [by intros [=]|].
  split; apply elem_of_cons; right; apply elem_of_cons; by left.
Qed.

(** ** Standard error *)

(** C10, as amended. When standard error is captured, the run is settled
    by a 'close' event with exit code zero before which the deadline
    timer has not fired, and what the process wrote to standard error
    contains a character that is not white space and lacks the start
    sentinel or the end sentinel, then the result has status [error] and
    its error field is the trimmed text of standard error. *)
Theorem stderr_text_is_an_error (env : Env) (code : string) (timeout : Z) :
  mkdir_close env = Some (Some 0) ->
  writeFile_error env = None ->
  python_spawn_error env = None ->
  exitedWith (python_events env) (Some 0) ->
  hasNonWhiteSpace (writtenStderr (python_events env)) = true ->
  Js.indexOf (writtenStderr (python_events env)) "AVILINK_ERROR_START" = None
  \/ Js.indexOf (writtenStderr (python_events env)) "AVILINK_ERROR_END" = None ->
  exists r,
    fst (executePythonCode env code timeout true) = Resolved r
    /\ Result.status r = Status.error
    /\ Result.error r = Some (Js.trim (writtenStderr (python_events env))).
Proof.
  intros Hmk Hwr Hsp [Hs Hf]%exitedWith_not_fired Htext Hpair.
  destruct (parseError_stderr_text _ Hpair Htext) as [Hparse Hfalsy].
  assert (Hrun : fst (runPythonProcess env (tempFile env) timeout true)
                 = Resolved (Result.mk "" (parseOutput (writtenStdout (python_events env)))
                               (Some (Js.trim (writtenStderr (python_events env))))
                               0 Status.error)).
  { rewrite runPythonProcess_settles, Hsp, Hs. unfold onClose, captured. simpl.
    by rewrite Hf, Hfalsy, Hparse. }
  eexists. split; [exact (executePythonCode_through_runner _ _ _ _ _ Hmk Hwr Hrun)|].
  by split.
Qed.

Lemma exited_with_warning : exitedWith Scenario.warned (Some 0).
Proof.
  exists [StderrData "DeprecationWarning: old"], []. split; [done|]. split.
  - by repeat constructor.
  - intros Hin. log_absent Hin.
Qed.

Lemma stderr_text_is_an_error_witness :
  exists r,
    fst (executePythonCode Scenario.noisy "x = 1" 30 true) = Resolved r
    /\ Result.status r = Status.error
    /\ Result.error r
       = Some (Js.trim (writtenStderr (python_events Scenario.noisy))).
Proof.
  apply (stderr_text_is_an_error Scenario.noisy "x = 1" 30).
  - reflexivity.
  - reflexivity.
  - reflexivity.
  - exact exited_with_warning.
  - reflexivity.
  - left. reflexivity.
Defined.

(** C10, as stated, fails twice over.  With [capture_output] false the
    streams are inherited, the warning on standard error never reaches
    the runner, and the status is [success].  And with the output
    captured and both error sentinels on standard error, the end
    sentinel first, there is no sentinel pair, yet the error field is the
    text up to the end of the start sentinel and not the trimmed text of
    standard error. *)
Lemma stderr_claim_as_stated_fails :
  (exitedWith Scenario.warned (Some 0)
   /\ hasNonWhiteSpace (writtenStderr Scenario.warned) = true
   /\ hasSentinelPair "AVILINK_ERROR_START" "AVILINK_ERROR_END"
        (writtenStderr Scenario.warned) = false
   /\ exists r,
        fst (executePythonCode Scenario.noisy "x = 1" 30 false) = Resolved r
        /\ Result.status r = Status.success
        /\ Result.error r = None)
  /\ (exitedWith Scenario.reversedError (Some 0)
      /\ hasNonWhiteSpace (writtenStderr Scenario.reversedError) = true
      /\ hasSentinelPair "AVILINK_ERROR_START" "AVILINK_ERROR_END"
           (writtenStderr Scenario.reversedError) = false
      /\ exists r,
           fst (executePythonCode Scenario.garbled "x = 1" 30 true) = Resolved r
           /\ Result.error r = Some "AVILINK_ERROR_END x AVILINK_ERROR_START"
           /\ Result.error r <> Some (Js.trim (writtenStderr Scenario.reversedError))).
Proof.
  split.
  - split; [exact exited_with_warning|]. split; [reflexivity|]. split; [reflexivity|].
    eexists. split; [reflexivity|]. by split.
  - split.
    { exists [StderrData "AVILINK_ERROR_END x AVILINK_ERROR_START y"], [].
      split; [done|]. split; [by repeat constructor|]. intros Hin. log_absent Hin. }
    split; [reflexivity|]. split; [reflexivity|].
    eexists. split; [reflexivity|]. by split.
Qed.

(** ** Round trip *)

(** Whatever the user's code prints while [sys.stdout] is redirected,
    the wrapped script writes nothing to its real standard output. *)
Lemma runScript_emits_nothing (user : Py.block) :
  (forall st, Py.stdout (snd (user st)) = Py.stdout st
              /\ Py.sys_stdout (snd (user st)) = Py.sys_stdout st) ->
  Py.exit_stdout (Py.runScript user) = "".
Proof.
  intros Huser. unfold Py.runScript, Py.runWrapper. simpl.
  destruct (Huser (Py.bind_stdout Py.StringIO Py.initial)) as [Hout Hbound].
  destruct (user (Py.bind_stdout Py.StringIO Py.initial)) as [[|e] st];
    simpl in *; unfold Py.print, Py.write; simpl; rewrite Hbound; simpl; by rewrite ?Hbound.
Qed.

(** C1. The wrapper prints the sentinels and the buffered output while
    [sys.stdout] is still bound to the buffer: for [print("hello")] the
    real standard output of the script stays empty, and the call returns
    status [success], a null error and the empty string as output, where
    the round trip asks for [hello]. *)
Theorem hello_output_is_lost :
  Py.runScript (Py.user_print "hello") = Py.mkExit "" "" 0
  /\ Py.buffer (Py.runWrapper (Py.user_print "hello"))
     = Js.join Js.nl ["hello"; "AVILINK_OUTPUT_START"; "hello"; ""; "AVILINK_OUTPUT_END"; ""]
  /\ containsUnsafeOperations Scenario.printHello = false
  /\ fst (execute
            (Scenario.world (processEvents (Py.runScript (Py.user_print "hello"))))
            (Scenario.request Scenario.printHello))
     = Resolved (ToolResult.mk true
                   (Result.mk Scenario.printHello "" None 1003 Status.success)
                   None 1010).
Proof. by repeat split. Qed.

(** * More of the code *)

(** ** [sanitizeInput] *)

Lemma isSpecial_cases (c : ascii) :
  isSpecial c = true ->
  (c = "<"%char /\ replacement c = "&lt;")
  \/ (c = ">"%char /\ replacement c = "&gt;")
  \/ (c = "034"%char /\ replacement c = "&quot;")
  \/ (c = "'"%char /\ replacement c = "&#x27;")
  \/ (c = "&"%char /\ replacement c = "&amp;").
Proof.
  destruct c as [[] [] [] [] [] [] [] []]; simpl; try discriminate; intros _; auto 12.
Qed.

Lemma sanitizeInput_cons (c : ascii) (rest : string) :
  sanitizeInput (String c rest)
  = (if isSpecial c then replacement c else String c "") +:+ sanitizeInput rest.
Proof. reflexivity. Qed.

Lemma occurs_append (c : ascii) (a b : string) :
  occurs c (a +:+ b) = occurs c a || occurs c b.
Proof.
  induction a as [|x a IH]; [done|].
  rewrite append_cons. simpl. by rewrite IH, orb_assoc.
Qed.

(** X1. The sanitised text holds no angle bracket and no quote. *)
Theorem sanitizeInput_no_markup (input : string) :
  occurs "<" (sanitizeInput input) = false
  /\ occurs ">" (sanitizeInput input) = false
  /\ occurs "034" (sanitizeInput input) = false
  /\ occurs "'" (sanitizeInput input) = false.
Proof.
  induction input as [|c rest (IH1 & IH2 & IH3 & IH4)]; [done|].
  rewrite sanitizeInput_cons, !occurs_append, IH1, IH2, IH3, IH4, !orb_false_r.
  destruct (isSpecial c) eqn:Hc.
  - destruct (isSpecial_cases c Hc) as [[_ ->]|[[_ ->]|[[_ ->]|[[_ ->]|[_ ->]]]]]; done.
  - simpl. rewrite !orb_false_r.
    destruct c as [[] [] [] [] [] [] [] []]; done.
Qed.

(** Sanitising is a morphism for concatenation. *)
Lemma sanitizeInput_append (a b : string) :
  sanitizeInput (a +:+ b) = sanitizeInput a +:+ sanitizeInput b.
Proof.
  induction a as [|c a IH]; [done|].
  by rewrite append_cons, !sanitizeInput_cons, IH, append_assoc.
Qed.

(** X2. Different inputs have different sanitised texts. *)
Theorem sanitizeInput_injective (a b : string) :
  sanitizeInput a = sanitizeInput b -> a = b.
Proof.
  revert b. induction a as [|c a IH]; intros [|d b] H; [done|..].
  - rewrite sanitizeInput_cons in H. exfalso.
    destruct (isSpecial d) eqn:Hd; [|discriminate H].
    destruct (isSpecial_cases d Hd) as [[_ E]|[[_ E]|[[_ E]|[[_ E]|[_ E]]]]];
      rewrite E in H; discriminate H.
  - rewrite sanitizeInput_cons in H. exfalso.
    destruct (isSpecial c) eqn:Hc; [|discriminate H].
    destruct (isSpecial_cases c Hc) as [[_ E]|[[_ E]|[[_ E]|[[_ E]|[_ E]]]]];
      rewrite E in H; discriminate H.
  - rewrite !sanitizeInput_cons in H.
    destruct (isSpecial c) eqn:Hc, (isSpecial d) eqn:Hd.
    + destruct (isSpecial_cases c Hc) as [[-> Ec]|[[-> Ec]|[[-> Ec]|[[-> Ec]|[-> Ec]]]]];
        destruct (isSpecial_cases d Hd) as [[-> Ed]|[[-> Ed]|[[-> Ed]|[[-> Ed]|[-> Ed]]]]];
        rewrite ?Ec, ?Ed in H; try discriminate H;
        apply append_inj_l in H; f_equal; by apply IH.
    + destruct (isSpecial_cases c Hc) as [[_ Ec]|[[_ Ec]|[[_ Ec]|[[_ Ec]|[_ Ec]]]]];
        rewrite Ec in H; injection H as <- _; discriminate Hd.
    + destruct (isSpecial_cases d Hd) as [[_ Ed]|[[_ Ed]|[[_ Ed]|[[_ Ed]|[_ Ed]]]]];
        rewrite Ed in H; injection H as -> _; discriminate Hc.
    + injection H as -> H. f_equal. by apply IH.
Qed.

Lemma sanitizeInput_injective_witness :
  sanitizeInput "a<b" = sanitizeInput "a<b" /\ "a<b" = "a<b".
Proof.
  split; [reflexivity|].
  apply (sanitizeInput_injective "a<b" "a<b"). reflexivity.
Defined.

Lemma replacement_length (c : ascii) :
  isSpecial c = true ->
  (4 <= String.length (replacement c) <= 6)%nat.
Proof.
  intros Hc.
  destruct (isSpecial_cases c Hc) as [[_ ->]|[[_ ->]|[[_ ->]|[[_ ->]|[_ ->]]]]];
    simpl; lia.
Qed.

Lemma sanitizeInput_grows (input : string) :
  (String.length input <= String.length (sanitizeInput input) <= 6 * String.length input)%nat
  /\ (hasSpecial input = true ->
      (String.length input < String.length (sanitizeInput input))%nat).
Proof.
  induction input as [|c rest [IH1 IH2]]; [by split; [simpl; lia|]|].
  rewrite sanitizeInput_cons, length_append. simpl.
  destruct (isSpecial c) eqn:Hc; simpl.
  - pose proof (replacement_length c Hc). split; [lia | intros _; lia].
  - split; [lia | intros H; specialize (IH2 H); lia].
Qed.

(** X3. The sanitised text is never shorter than the input, longer by three
    characters or more as soon as one character is replaced, and at most
    six times as long. *)
Theorem sanitizeInput_length (input : string) :
  (String.length input + (if hasSpecial input then 3 else 0)
   <= String.length (sanitizeInput input) <= 6 * String.length input)%nat.
Proof.
  induction input as [|c rest IH]; [simpl; lia|].
  rewrite sanitizeInput_cons, length_append. simpl.
  destruct (isSpecial c) eqn:Hc; simpl.
  - pose proof (replacement_length c Hc). destruct (hasSpecial rest); lia.
  - destruct (hasSpecial rest); lia.
Qed.

Lemma hasSpecial_append (a b : string) :
  hasSpecial (a +:+ b) = hasSpecial a || hasSpecial b.
Proof.
  induction a as [|x a IH]; [done|].
  rewrite append_cons. simpl. by rewrite IH, orb_assoc.
Qed.

Lemma sanitizeInput_clean (input : string) :
  hasSpecial input = false -> sanitizeInput input = input.
Proof.
  induction input as [|c rest IH]; [done|]. simpl.
  intros [Hc Hrest]%orb_false_iff. rewrite Hc, IH by done. reflexivity.
Qed.

Lemma hasSpecial_sanitizeInput (input : string) :
  hasSpecial (sanitizeInput input) = hasSpecial input.
Proof.
  induction input as [|c rest IH]; [done|].
  rewrite sanitizeInput_cons, hasSpecial_append, IH. simpl.
  destruct (isSpecial c) eqn:Hc; simpl; [|by rewrite Hc].
  by destruct (isSpecial_cases c Hc) as [[_ ->]|[[_ ->]|[[_ ->]|[[_ ->]|[_ ->]]]]].
Qed.

(** X4. Sanitising leaves a text alone exactly when it holds none of the five
    characters, and sanitising twice is the same as sanitising once
    exactly then: otherwise the ampersand of every entity is encoded
    again. *)
Theorem sanitizeInput_fixed_point (input : string) :
  (sanitizeInput input = input <-> hasSpecial input = false)
  /\ (sanitizeInput (sanitizeInput input) = sanitizeInput input
      <-> hasSpecial input = false).
Proof.
  assert (Hfix : forall s, sanitizeInput s = s <-> hasSpecial s = false).
  { intros s. split; [|apply sanitizeInput_clean].
    intros H. destruct (hasSpecial s) eqn:Hs; [|done].
    destruct (sanitizeInput_grows s) as [_ Hlt]. specialize (Hlt Hs).
    rewrite H in Hlt. lia. }
  split; [apply Hfix|].
  by rewrite Hfix, hasSpecial_sanitizeInput.
Qed.

(** ** The lines of the wrapped script *)

Lemma split_cons (sep c : ascii) (s : string) :
  Js.split sep (String c s) =
  if Ascii.eqb c sep then EmptyString :: Js.split sep s
  else match Js.split sep s with
       | h :: t => String c h :: t
       | [] => [String c EmptyString]
       end.
Proof. reflexivity. Qed.

Lemma split_nonempty (sep : ascii) (s : string) : Js.split sep s <> [].
Proof.
  induction s as [|c s IH]; [done|]. rewrite split_cons.
  destruct (Ascii.eqb c sep); [done|]. by destruct (Js.split sep s).
Qed.

Lemma join_cons_cons (sep x y : string) (rest : list string) :
  Js.join sep (x :: y :: rest) = x +:+ sep +:+ Js.join sep (y :: rest).
Proof. reflexivity. Qed.

Lemma join_head_char (sep : string) (c : ascii) (h : string) (t : list string) :
  Js.join sep (String c h :: t) = String c (Js.join sep (h :: t)).
Proof. destruct t; [done|]. by rewrite !join_cons_cons, append_cons. Qed.

(** Joining the pieces of a split gives the text back. *)
Lemma join_split (sep : ascii) (s : string) :
  Js.join (String sep "") (Js.split sep s) = s.
Proof.
  induction s as [|c s IH]; [done|]. rewrite split_cons.
  destruct (Ascii.eqb c sep) eqn:Hc.
  - apply Ascii.eqb_eq in Hc as ->.
    pose proof (split_nonempty sep s) as Hne.
    destruct (Js.split sep s) as [|h t]; [done|].
    by rewrite join_cons_cons, IH.
  - pose proof (split_nonempty sep s) as Hne.
    destruct (Js.split sep s) as [|h t]; [done|].
    by rewrite join_head_char, IH.
Qed.

Lemma split_pieces (sep : ascii) (s : string) :
  Forall (fun piece => occurs sep piece = false) (Js.split sep s).
Proof.
  induction s as [|c s IH]; [by repeat constructor|]. rewrite split_cons.
  destruct (Ascii.eqb c sep) eqn:Hc; [by constructor|].
  destruct (Js.split sep s) as [|h t]; [by repeat constructor; simpl; rewrite Hc|].
  inversion IH as [|? ? Hh Ht]; subst. constructor; [|done]. simpl. by rewrite Hc.
Qed.

Lemma split_piece_then (sep : ascii) (piece s : string) :
  occurs sep piece = false ->
  Js.split sep (piece +:+ String sep s) = piece :: Js.split sep s.
Proof.
  induction piece as [|c piece IH]; intros H.
  - rewrite append_nil, split_cons. by rewrite Ascii.eqb_refl.
  - simpl in H. apply orb_false_iff in H as [Hc H].
    rewrite append_cons, split_cons, Hc, IH by done. done.
Qed.

Lemma split_piece (sep : ascii) (piece : string) :
  occurs sep piece = false -> Js.split sep piece = [piece].
Proof.
  induction piece as [|c piece IH]; intros H; [done|].
  simpl in H. apply orb_false_iff in H as [Hc H].
  by rewrite split_cons, Hc, IH.
Qed.

(** Splitting a join of separator-free pieces gives the pieces back. *)
Lemma split_join (sep : ascii) (pieces : list string) :
  pieces <> [] ->
  Forall (fun piece => occurs sep piece = false) pieces ->
  Js.split sep (Js.join (String sep "") pieces) = pieces.
Proof.
  induction pieces as [|x pieces IH]; [done|]. intros _ H.
  inversion H as [|? ? Hx Hrest]; subst.
  destruct pieces as [|y pieces]; [by apply split_piece|].
  rewrite join_cons_cons, append_cons, append_nil, split_piece_then by done.
  by rewrite IH.
Qed.

Lemma join_app (sep : string) (l1 l2 : list string) :
  l1 <> [] -> l2 <> [] ->
  Js.join sep (l1 ++ l2) = Js.join sep l1 +:+ sep +:+ Js.join sep l2.
Proof.
  induction l1 as [|x l1 IH]; [done|]. intros _ H2.
  destruct l1 as [|y l1].
  - destruct l2; [done|]. reflexivity.
  - change ((x :: y :: l1) ++ l2) with (x :: (y :: l1) ++ l2).
    change ((y :: l1) ++ l2) with (y :: l1 ++ l2) at 1.
    rewrite join_cons_cons.
    change (y :: l1 ++ l2) with ((y :: l1) ++ l2).
    by rewrite IH, join_cons_cons, !append_assoc.
Qed.

(** A joined block inside a list of lines is the same as its lines. *)
Lemma join_nested (sep : string) (before block after : list string) :
  before <> [] -> block <> [] -> after <> [] ->
  Js.join sep (before ++ [Js.join sep block] ++ after)
  = Js.join sep (before ++ block ++ after).
Proof.
  intros Hb Hk Ha.
  rewrite !join_app by (try done; by destruct block).
  done.
Qed.

Lemma wrapCodeWithSafety_split (code : string) :
  Js.split "010" (wrapCodeWithSafety code)
  = wrapperHead
    ++ map (fun line => "    " +:+ line) (Js.split "010" code)
    ++ wrapperTail.
Proof.
  unfold wrapCodeWithSafety.
  pose proof (split_nonempty "010" code) as Hne.
  pose proof (split_pieces "010" code) as Hpieces.
  destruct (Js.split "010" code) as [|line lines] eqn:Hsplit; [done|].
  rewrite join_nested by done.
  apply split_join; [done|].
  apply Forall_app. split; [by repeat constructor|].
  apply Forall_app. split; [|by repeat constructor].
  apply Forall_fmap. eapply Forall_impl; [exact Hpieces|].
  intros piece Hpiece. simpl. by rewrite occurs_append, Hpiece.
Qed.

(** X6. The wrapped script, line by line: the twelve lines of the template's
    head, every line of the user's code behind four spaces, and the
    fifteen lines of the template's tail.  Line [k] of the user's code is
    line [k + 12] of the script. *)
Theorem wrapCodeWithSafety_lines (code : string) :
  Js.split "010" (wrapCodeWithSafety code)
  = wrapperHead
    ++ map (fun line => "    " +:+ line) (Js.split "010" code)
    ++ wrapperTail.
Proof. apply wrapCodeWithSafety_split. Qed.

(** X7. Different source texts are wrapped into different scripts. *)
Theorem wrapCodeWithSafety_injective (code1 code2 : string) :
  wrapCodeWithSafety code1 = wrapCodeWithSafety code2 -> code1 = code2.
Proof.
  intros H. apply (f_equal (Js.split "010")) in H.
  rewrite !wrapCodeWithSafety_split in H.
  apply app_inv_head, app_inv_tail in H.
  assert (Hlines : Js.split "010" code1 = Js.split "010" code2).
  { revert H. generalize (Js.split "010" code2). generalize (Js.split "010" code1).
    induction l as [|x l IH]; intros [|y l'] H; try done.
    injection H as Hxy H. apply append_inj_l in Hxy as ->. f_equal. by apply IH. }
  by rewrite <- (join_split "010" code1), <- (join_split "010" code2), Hlines.
Qed.

Lemma wrapCodeWithSafety_injective_witness :
  wrapCodeWithSafety "x = 1" = wrapCodeWithSafety "x = 1" /\ "x = 1" = "x = 1".
Proof.
  split; [reflexivity|].
  apply (wrapCodeWithSafety_injective "x = 1" "x = 1"). reflexivity.
Defined.

(** ** The safety pre-filter *)

Lemma matchesPrefix_extend (r : Regex.regex) (s more : string) :
  Regex.matchesPrefix r s -> Regex.matchesPrefix r (s +:+ more).
Proof.
  induction 1 as [s|l r s _ IH|r s _ IH|r c s Hc _ IH|r c s Hc _ IH].
  - constructor.
  - rewrite append_assoc. by constructor.
  - by apply Regex.match_star_none.
  - rewrite append_cons. by apply Regex.match_star_more.
  - rewrite append_cons. by apply Regex.match_plus.
Qed.

Lemma found_in_context (r : Regex.regex) (before code after : string) :
  Regex.found r code -> Regex.found r (before +:+ code +:+ after).
Proof.
  intros (b & a & -> & Hm).
  exists (before +:+ b), (a +:+ after). split.
  - by rewrite !append_assoc.
  - by apply matchesPrefix_extend.
Qed.

(** X8. Whatever is put before or after a rejected text, the result is
    rejected as well: a denylisted fragment in a comment, in a string
    literal or inside a longer name is enough. *)
Theorem containsUnsafeOperations_in_context (before code after : string) :
  containsUnsafeOperations code = true ->
  containsUnsafeOperations (before +:+ code +:+ after) = true.
Proof.
  rewrite !containsUnsafeOperations_spec.
  intros (pattern & Hin & Hfound). exists pattern.
  split; [done | by apply found_in_context].
Qed.

Lemma containsUnsafeOperations_in_context_witness :
  containsUnsafeOperations "eval(" = true
  /\ containsUnsafeOperations ("# never call " +:+ "eval(" +:+ "x)") = true.
Proof.
  split; [reflexivity|].
  apply (containsUnsafeOperations_in_context "# never call " "eval(" "x)"). reflexivity.
Defined.

Lemma matchesPrefix_white_space (r : Regex.regex) (space s : string) :
  hasNonWhiteSpace space = false ->
  Regex.matchesPrefix r s ->
  Regex.matchesPrefix (Regex.WsStar :: r) (space +:+ s).
Proof.
  intros Hspace Hs. induction space as [|c space IH].
  - by apply Regex.match_star_none.
  - simpl in Hspace. apply orb_false_iff in Hspace as [Hc Hspace].
    rewrite append_cons. apply Regex.match_star_more; [|by apply IH].
    by destruct (Js.isWhiteSpace c).
Qed.

(** X9. The call patterns have no word boundary and ignore white space
    before the parenthesis: any text in which one of the six names, then
    white space or nothing, then an opening parenthesis occurs is
    rejected, also when the name is the end of a longer identifier. *)
Theorem containsUnsafeOperations_call (name before space after : string) :
  name ∈ ["exec"; "eval"; "open"; "file"; "input"; "raw_input"] ->
  hasNonWhiteSpace space = false ->
  containsUnsafeOperations (before +:+ name +:+ space +:+ "(" +:+ after) = true.
Proof.
  intros Hname Hspace. apply containsUnsafeOperations_spec.
  exists [Regex.Lit name; Regex.WsStar; Regex.Lit "("]. split.
  - unfold unsafePatterns.
    repeat (apply elem_of_cons in Hname as [-> | Hname]; [log_member|]).
    by apply elem_of_nil in Hname.
  - exists before, (name +:+ space +:+ "(" +:+ after). split; [done|].
    apply Regex.match_lit. apply matchesPrefix_white_space; [done|].
    apply Regex.match_lit. apply Regex.match_end.
Qed.

Lemma containsUnsafeOperations_call_witness :
  containsUnsafeOperations ("re" +:+ "open" +:+ " " +:+ "(" +:+ "f)") = true.
Proof.
  apply (containsUnsafeOperations_call "open" "re" " " "f)").
  - log_member.
  - reflexivity.
Defined.

(** ** More on the process runner *)

(** X10. An 'error' event of the interpreter process before it closes settles
    the run, whether or not the deadline has fired and whatever has been
    captured: status [error], empty output, the message behind
    [Process error: ].  The caller replaces the duration by the measured
    time. *)
Theorem process_error_result (env : Env) (code : string) (timeout : Z) (captureOutput : bool)
    (before : list ProcessEvent) (message : string) (rest : list ProcessEvent) :
  mkdir_close env = Some (Some 0) ->
  writeFile_error env = None ->
  python_spawn_error env = None ->
  python_events env = before ++ ProcessError message :: rest ->
  unsettled before ->
  fst (runPythonProcess env (tempFile env) timeout captureOutput)
  = Resolved (Result.mk "" "" (Some ("Process error: " +:+ message)) 0 Status.error)
  /\ fst (executePythonCode env code timeout captureOutput)
     = Resolved (Result.mk code "" (Some ("Process error: " +:+ message))
                   (now_execution_end env - now_execution_start env) Status.error).
Proof.
  intros Hmk Hwr Hsp Hev Hbefore.
  assert (Hrun : fst (runPythonProcess env (tempFile env) timeout captureOutput)
                 = Resolved (onError message)).
  { rewrite runPythonProcess_settles, Hsp, Hev.
    by rewrite (settling_app before (ProcessError message) rest). }
  split; [done|].
  by rewrite (executePythonCode_through_runner _ _ _ _ _ Hmk Hwr Hrun).
Qed.

Lemma process_error_result_witness :
  fst (runPythonProcess
         (Scenario.world [StdoutData "partial"; TimerFired; ProcessError "kill EPERM"])
         (tempFile
            (Scenario.world [StdoutData "partial"; TimerFired; ProcessError "kill EPERM"]))
         1 true)
  = Resolved (Result.mk "" "" (Some ("Process error: " +:+ "kill EPERM")) 0 Status.error)
  /\ fst (executePythonCode
            (Scenario.world [StdoutData "partial"; TimerFired; ProcessError "kill EPERM"])
            "x = 1" 1 true)
     = Resolved (Result.mk "x = 1" "" (Some ("Process error: " +:+ "kill EPERM"))
                   (2008 - 1005) Status.error).
Proof.
  apply (process_error_result
           (Scenario.world [StdoutData "partial"; TimerFired; ProcessError "kill EPERM"])
           "x = 1" 1 true [StdoutData "partial"; TimerFired] "kill EPERM" []).
  - reflexivity.
  - reflexivity.
  - reflexivity.
  - reflexivity.
  - by repeat constructor.
Defined.

Lemma runnerLoop_kills (timeout : Z) (captureOutput : bool) (events : list ProcessEvent) :
  forall st,
    List.filter isKill (snd (runnerLoop timeout captureOutput st events))
    = if negb (timedOut st) && deadlineFired events then [Kill "SIGKILL"] else [].
Proof.
  induction events as [|e events IH]; intros st; [by rewrite andb_false_r|].
  destruct e as [data|data| |code|message]; simpl.
  - rewrite IH. by destruct captureOutput.
  - rewrite IH. by destruct captureOutput.
  - destruct (timedOut st) eqn:Ht.
    + by rewrite IH, Ht.
    + specialize (IH (mkRunner (output st) (error st) true)).
      destruct (runnerLoop _ _ _ events) as [r log]. simpl in *. by rewrite IH.
  - by rewrite andb_false_r.
  - by rewrite andb_false_r.
Qed.

(** X11. The runner sends [SIGKILL] at most once, and exactly when the
    interpreter was started and the deadline timer fired before the
    process closed or failed. *)
Theorem runPythonProcess_kills (env : Env) (scriptPath : string) (timeout : Z)
    (captureOutput : bool) :
  List.filter isKill (snd (runPythonProcess env scriptPath timeout captureOutput))
  = if bool_decide (python_spawn_error env = None) && deadlineFired (python_events env)
    then [Kill "SIGKILL"] else [].
Proof.
  unfold runPythonProcess. rewrite bind_perform. simpl.
  destruct (python_spawn_error env); [done|].
  by rewrite runnerLoop_kills.
Qed.

(** X13. With [capture_output] false nothing of the streams reaches the
    result: when the process closes before the deadline, the output is
    empty, the error is null, and the status is [success] exactly for
    exit code zero. *)
Theorem uncaptured_result (env : Env) (scriptPath : string) (timeout : Z) (code : option Z) :
  python_spawn_error env = None ->
  exitedWith (python_events env) code ->
  fst (runPythonProcess env scriptPath timeout false)
  = Resolved (Result.mk "" "" None 0
                (if bool_decide (code = Some 0) then Status.success else Status.error)).
Proof.
  intros Hsp [Hs Hf]%exitedWith_not_fired.
  rewrite runPythonProcess_settles, Hsp, Hs. unfold onClose. simpl. rewrite Hf.
  by case_bool_decide.
Qed.

Lemma uncaptured_result_witness :
  fst (runPythonProcess Scenario.noisy "script.py" 30 false)
  = Resolved (Result.mk "" "" None 0
                (if bool_decide (Some 0 = Some 0 :> option Z)
                 then Status.success else Status.error)).
Proof.
  apply (uncaptured_result Scenario.noisy "script.py" 30 (Some 0)).
  - reflexivity.
  - exists [StderrData "DeprecationWarning: old"], []. split; [done|]. split.
    + by repeat constructor.
    + intros Hin. log_absent Hin.
Defined.

(** ** More on [executePythonCode] *)

(** X14. The call never throws: whatever the directory helper, the file
    system and the interpreter do, it stays pending or returns a result,
    and every result carries the submitted source text. *)
Theorem executePythonCode_never_throws (env : Env) (code : string) (timeout : Z)
    (captureOutput : bool) :
  fst (executePythonCode env code timeout captureOutput) = Pending
  \/ exists r,
       fst (executePythonCode env code timeout captureOutput) = Resolved r
       /\ Result.code r = code.
Proof.
  unfold executePythonCode, ensureTempDir, writeFile, unlink. fold (tempFile env).
  destruct (mkdir_close env) as [exit|]; [|by left].
  case_bool_decide.
  - destruct (writeFile_error env) as [message|].
    + right. destruct (unlink_error env); simpl; eauto.
    + destruct (runPythonProcess env (tempFile env) timeout captureOutput)
        as [[r|message|] log]; [right|right|by left];
        destruct (unlink_error env); simpl; eauto.
  - right. destruct (unlink_error env); simpl; eauto.
Qed.

(** X15. When [mkdir -p] closes with anything but exit code zero, the script
    is not written and the interpreter is not started; the result is an
    error that names the exit code, and the deletion of the script that
    was never written is still attempted. *)
Theorem mkdir_failure (env : Env) (code : string) (timeout : Z) (captureOutput : bool)
    (exit : option Z) :
  mkdir_close env = Some exit ->
  exit <> Some 0 ->
  executePythonCode env code timeout captureOutput
  = (Resolved (Result.mk code "" (Some ("Failed to create directory: " +:+ showCode exit))
                 0 Status.error),
     Spawn "mkdir" ["-p"; "/tmp/avilink-python"]
     :: Unlink (tempFile env)
     :: match unlink_error env with
        | Some message => [ConsoleError ("Cleanup error: " +:+ message)]
        | None => []
        end).
Proof.
  intros Hmk Hexit.
  unfold executePythonCode, ensureTempDir, writeFile, unlink. fold (tempFile env).
  rewrite Hmk. case_bool_decide; [done|].
  by destruct (unlink_error env).
Qed.

Lemma mkdir_failure_witness :
  executePythonCode
    (mkEnv 1000 1001 1005 2008 2010 (Some None) None (Some "ENOENT") None [] None None)
    "x = 1" 30 true
  = (Resolved (Result.mk "x = 1" "" (Some ("Failed to create directory: " +:+ showCode None))
                 0 Status.error),
     Spawn "mkdir" ["-p"; "/tmp/avilink-python"]
     :: Unlink "/tmp/avilink-python/script_1001.py"
     :: [ConsoleError ("Cleanup error: " +:+ "ENOENT")]).
Proof.
  apply (mkdir_failure
           (mkEnv 1000 1001 1005 2008 2010 (Some None) None (Some "ENOENT") None [] None None)
           "x = 1" 30 true None).
  - reflexivity.
  - discriminate.
Defined.

Lemma runnerLoop_spawns (timeout : Z) (captureOutput : bool) (events : list ProcessEvent) :
  forall st, List.filter isSpawn (snd (runnerLoop timeout captureOutput st events)) = [].
Proof.
  induction events as [|e events IH]; intros st; [done|].
  destruct e as [data|data| |code|message]; simpl; try done.
  destruct (timedOut st); [done|].
  specialize (IH (mkRunner (output st) (error st) true)).
  by destruct (runnerLoop _ _ _ events) as [r log].
Qed.

(** X16. One call starts the directory helper, and after it at most one
    interpreter process: exactly when the helper exited with code zero
    and the script was written. *)
Theorem executePythonCode_spawns (env : Env) (code : string) (timeout : Z)
    (captureOutput : bool) :
  List.filter isSpawn (snd (executePythonCode env code timeout captureOutput))
  = Spawn "mkdir" ["-p"; "/tmp/avilink-python"]
    :: if bool_decide (mkdir_close env = Some (Some 0))
          && bool_decide (writeFile_error env = None)
       then [Spawn "python3" [tempFile env]] else [].
Proof.
  unfold executePythonCode, ensureTempDir, writeFile, unlink, runPythonProcess.
  fold (tempFile env).
  destruct (mkdir_close env) as [exit|]; [|done].
  case_bool_decide as Hexit.
  - subst exit. rewrite bool_decide_eq_true_2 by done.
    destruct (writeFile_error env) as [message|].
    + by destruct (unlink_error env).
    + destruct (python_spawn_error env) as [message|].
      * by destruct (unlink_error env).
      * pose proof (runnerLoop_spawns timeout captureOutput (python_events env)
                      (mkRunner "" "" false)) as Hloop.
        destruct (runnerLoop _ _ _ (python_events env)) as [[r|message|] log];
          simpl in *; destruct (unlink_error env); simpl;
          rewrite ?List.filter_app, ?Hloop; done.
  - rewrite bool_decide_eq_false_2 by congruence.
    by destruct (unlink_error env).
Qed.

(** ** More on [execute] *)

Lemma executePythonCode_code (env : Env) (code : string) (timeout : Z)
    (captureOutput : bool) (r : PythonExecutionResult) :
  fst (executePythonCode env code timeout captureOutput) = Resolved r ->
  Result.code r = code /\ Unlink (tempFile env) ∈ snd (executePythonCode env code timeout captureOutput).
Proof.
  unfold executePythonCode, ensureTempDir, writeFile, unlink. fold (tempFile env).
  destruct (mkdir_close env) as [exit|]; [|done].
  case_bool_decide.
  - destruct (writeFile_error env) as [message|].
    + destruct (unlink_error env); simpl; intros [= <-]; (split; [done | log_member]).
    + destruct (runPythonProcess env (tempFile env) timeout captureOutput)
        as [[r0|message|] log]; [| |done];
        destruct (unlink_error env); simpl; intros [= <-];
        (split; [done|]);
        rewrite ?elem_of_cons, ?elem_of_app, ?elem_of_cons; auto 10.
  - destruct (unlink_error env); simpl; intros [= <-]; (split; [done | log_member]).
Qed.

Lemma executePythonCode_not_rejected (env : Env) (code : string) (timeout : Z)
    (captureOutput : bool) (message : string) :
  fst (executePythonCode env code timeout captureOutput) <> Rejected message.
Proof.
  unfold executePythonCode, ensureTempDir, writeFile, unlink. fold (tempFile env).
  destruct (mkdir_close env) as [exit|]; [|done].
  case_bool_decide.
  - destruct (writeFile_error env) as [failure|].
    + by destruct (unlink_error env).
    + destruct (runPythonProcess env (tempFile env) timeout captureOutput)
        as [[r0|failure|] log]; by destruct (unlink_error env).
  - by destruct (unlink_error env).
Qed.

(** X18. A run that is killed at the deadline comes back with [success]
    false and without a top-level error: the message [Execution timed
    out] is only in the [data] of the result. *)
Theorem timeout_tool_result (env : Env) (parameters : Parameters.t) (code : string) :
  Parameters.code parameters = Value code ->
  containsUnsafeOperations code = false ->
  mkdir_close env = Some (Some 0) ->
  writeFile_error env = None ->
  python_spawn_error env = None ->
  killedByDeadline (python_events env) ->
  fst (execute env parameters)
  = Resolved (ToolResult.mk false
                (Result.mk code "" (Some "Execution timed out")
                   (now_execution_end env - now_execution_start env) Status.timeout)
                None
                (now_measure_end env - now_measure_start env)).
Proof.
  intros Hcode Hsafe Hmk Hwr Hsp Hkill.
  rewrite (execute_accepted env parameters code Hcode Hsafe).
  pose proof (runPythonProcess_timeout env (tempFile env)
                (withDefault (Parameters.timeout parameters) 30)
                (withDefault (Parameters.capture_output parameters) true) Hsp Hkill) as Hrun.
  pose proof (executePythonCode_through_runner env code _ _ _ Hmk Hwr Hrun) as Hexec.
  destruct (executePythonCode env code _ _) as [o log]. simpl in Hexec. by subst o.
Qed.

Lemma timeout_tool_result_witness :
  fst (execute Scenario.slow (Scenario.request "x = 1"))
  = Resolved (ToolResult.mk false
                (Result.mk "x = 1" "" (Some "Execution timed out")
                   (now_execution_end Scenario.slow - now_execution_start Scenario.slow)
                   Status.timeout)
                None
                (now_measure_end Scenario.slow - now_measure_start Scenario.slow)).
Proof.
  apply (timeout_tool_result Scenario.slow (Scenario.request "x = 1") "x = 1").
  - reflexivity.
  - reflexivity.
  - reflexivity.
  - reflexivity.
  - reflexivity.
  - exists [TimerFired], None, []. split; [done|]. split; [by repeat constructor | log_member].
Defined.

(** X19. A process that exits with a code other than zero and leaves nothing
    on standard error is reported as a failure without any message:
    [success] is false, and both the top-level error and the error of
    the data are null. *)
Theorem silent_failure (env : Env) (parameters : Parameters.t) (code : string)
    (exit : option Z) :
  Parameters.code parameters = Value code ->
  containsUnsafeOperations code = false ->
  mkdir_close env = Some (Some 0) ->
  writeFile_error env = None ->
  python_spawn_error env = None ->
  exitedWith (python_events env) exit ->
  exit <> Some 0 ->
  Js.falsy (parseError (captured (withDefault (Parameters.capture_output parameters) true)
                          (writtenStderr (python_events env)))) = true ->
  fst (execute env parameters)
  = Resolved (ToolResult.mk false
                (Result.mk code
                   (parseOutput (captured (withDefault (Parameters.capture_output parameters) true)
                                   (writtenStdout (python_events env))))
                   None
                   (now_execution_end env - now_execution_start env) Status.error)
                None
                (now_measure_end env - now_measure_start env)).
Proof.
  intros Hcode Hsafe Hmk Hwr Hsp [Hs Hf]%exitedWith_not_fired Hexit Hblank.
  rewrite (execute_accepted env parameters code Hcode Hsafe).
  assert (Hrun : fst (runPythonProcess env (tempFile env)
                        (withDefault (Parameters.timeout parameters) 30)
                        (withDefault (Parameters.capture_output parameters) true))
                 = Resolved (Result.mk ""
                     (parseOutput (captured (withDefault (Parameters.capture_output parameters) true)
                                     (writtenStdout (python_events env))))
                     None 0 Status.error)).
  { rewrite runPythonProcess_settles, Hsp, Hs. unfold onClose. simpl.
    rewrite Hf, Hblank, bool_decide_eq_false_2 by done. done. }
  pose proof (executePythonCode_through_runner env code _ _ _ Hmk Hwr Hrun) as Hexec.
  destruct (executePythonCode env code _ _) as [o log]. simpl in Hexec. by subst o.
Qed.

Lemma silent_failure_witness :
  fst (execute (Scenario.world [StdoutData "partial"; Close (Some 3)]) (Scenario.request "x = 1"))
  = Resolved (ToolResult.mk false
                (Result.mk "x = 1"
                   (parseOutput (captured true
                                   (writtenStdout [StdoutData "partial"; Close (Some 3)])))
                   None (2008 - 1005) Status.error)
                None (2010 - 1000)).
Proof.
  apply (silent_failure (Scenario.world [StdoutData "partial"; Close (Some 3)])
           (Scenario.request "x = 1") "x = 1" (Some 3)).
  - reflexivity.
  - reflexivity.
  - reflexivity.
  - reflexivity.
  - reflexivity.
  - exists [StdoutData "partial"], []. split; [done|]. split.
    + by repeat constructor.
    + intros Hin. log_absent Hin.
  - discriminate.
  - reflexivity.
Defined.

(** X20. When [execute] returns and the user row could be written, the record
    handed to the database is the returned [data], field by field, and
    it is handed over after the temporary script has been deleted. *)
Theorem logged_record (env : Env) (parameters : Parameters.t) (r : ToolResult.t) :
  fst (execute env parameters) = Resolved r ->
  upsert_error env = None ->
  exists before after,
    snd (execute env parameters)
    = before ++ UserUpsert "default-session"
             :: CodeExecutionCreate (ToolResult.data r) :: after
    /\ Unlink (tempFile env) ∈ before
    /\ Forall (fun e => isConsoleError e = true) after.
Proof.
  intros Hr Hupsert.
  destruct (Parameters.code parameters) as [| |code] eqn:Hcode;
    [by unfold execute, measureExecutionTime, validateParameters, missing in Hr;
        simpl in Hr; rewrite Hcode in Hr..|].
  destruct (containsUnsafeOperations code) eqn:Hsafe;
    [by unfold execute, measureExecutionTime, validateParameters, missing in Hr;
        simpl in Hr; rewrite Hcode, Hsafe in Hr|].
  rewrite (execute_accepted env parameters code Hcode Hsafe) in Hr |- *.
  pose proof (executePythonCode_code env code
                (withDefault (Parameters.timeout parameters) 30)
                (withDefault (Parameters.capture_output parameters) true)) as Hinv.
  destruct (executePythonCode env code _ _) as [[r0|failure|] log]; [|done..].
  simpl in Hr. injection Hr as <-. simpl.
  destruct (Hinv r0 eq_refl) as [Hc Hunlink]. simpl in Hunlink.
  unfold logExecution, userUpsert, codeExecutionCreate. rewrite Hupsert.
  assert (Result.mk code (Result.output r0) (Result.error r0)
            (Result.execution_time r0) (Result.status r0) = r0) as ->
    by (destruct r0; simpl in *; by subst).
  destruct (create_error env) as [failure|]; simpl.
  - exists log, [ConsoleError ("Failed to log code execution: " +:+ failure)].
    split; [done|]. split; [done | by repeat constructor].
  - exists log, []. split; [done|]. split; [done | constructor].
Qed.

Lemma logged_record_witness :
  exists before after,
    snd (execute Scenario.prompt (Scenario.request "x = 1"))
    = before ++ UserUpsert "default-session"
             :: CodeExecutionCreate (Result.mk "x = 1" "" None 1003 Status.success) :: after
    /\ Unlink (tempFile Scenario.prompt) ∈ before
    /\ Forall (fun e => isConsoleError e = true) after.
Proof.
  apply (logged_record Scenario.prompt (Scenario.request "x = 1")
           (ToolResult.mk true (Result.mk "x = 1" "" None 1003 Status.success) None 1010)).
  - reflexivity.
  - reflexivity.
Defined.

(** ** Parameters of any type *)

Lemma filter_nil_iff {A} (test : A -> bool) (l : list A) :
  filter (fun x => test x = true) l = [] <-> Forall (fun x => test x = false) l.
Proof.
  induction l as [|x l IH]; [by split; [constructor|]|].
  rewrite filter_cons. destruct (decide (test x = true)) as [Hx|Hx].
  - split; [done|]. intros H. inversion H as [|? ? Hx' _]. congruence.
  - rewrite IH. apply not_true_is_false in Hx.
    split; [by constructor | by intros H; inversion H].
Qed.

(** X5. The validation of a [parameters] value of any type.  For a value
    that is no object, the first required name makes the [in] test throw
    a TypeError.  For an object or an array, the two fields of the
    validation agree: [isValid] holds exactly when [missingParams] is
    undefined, and exactly when every required name is set; otherwise
    [missingParams] is the non-empty list of the required names that are
    missing, in the order in which they are required.  A name is set
    when the value has it as its own property with a value other than
    [undefined], or inherits it. *)
Theorem validateParameters_coherent {number} (engine : Any.Engine number)
    (parameters : Any.value number) (required : list string) :
  match validateParametersAny engine parameters required with
  | inl typeError =>
      Any.isObject parameters = false
      /\ exists param rest, required = param :: rest
                            /\ typeError = Any.inError engine param parameters
  | inr validation =>
      (Any.isObject parameters = true \/ required = [])
      /\ (isValid validation = true <-> missingParams validation = None)
      /\ (Any.isObject parameters = true ->
          (isValid validation = true
           <-> Forall (fun param => Any.missing engine parameters param = false) required)
          /\ forall names,
               missingParams validation = Some names ->
               names <> []
               /\ names `sublist_of` required
               /\ forall param,
                    param ∈ names
                    <-> param ∈ required /\ Any.missing engine parameters param = true)
  end.
Proof.
  unfold validateParametersAny.
  destruct (Any.isObject parameters) eqn:Hobject.
  - pose proof (filter_nil_iff (Any.missing engine parameters) required) as Hempty.
    pose proof (sublist_filter (fun param => Any.missing engine parameters param = true)
                  required) as Hsub.
    assert (Hin : forall param,
               param ∈ filter (fun param => Any.missing engine parameters param = true) required
               <-> param ∈ required /\ Any.missing engine parameters param = true).
    { intros param. by rewrite list_elem_of_filter, (comm and). }
    destruct (filter (fun param => Any.missing engine parameters param = true) required)
      as [|n names]; simpl.
    + split; [by left|]. split; [done|]. intros _. split; [|done].
      split; [intros _; by apply Hempty | done].
    + split; [by left|]. split; [done|]. intros _. split.
      * split; [done|]. intros H. by apply Hempty in H.
      * intros l [= <-]. done.
  - destruct required as [|param rest]; simpl.
    + split; [by right|]. split; [done|]. done.
    + split; [done|]. by exists param, rest.
Qed.

(** The timeout has no bearing on what the runner reports of the output,
    the error and the status, nor on what it does. *)
Lemma runnerLoop_timeout (timeout1 timeout2 : Z) (captureOutput : bool)
    (events : list ProcessEvent) :
  forall st,
    mapIo (fun r => (Result.output r, Result.error r, Result.status r))
      (runnerLoop timeout1 captureOutput st events)
    = mapIo (fun r => (Result.output r, Result.error r, Result.status r))
        (runnerLoop timeout2 captureOutput st events).
Proof.
  induction events as [|e events IH]; intros st; [done|].
  destruct e as [data|data| |code|message]; simpl; try apply IH.
  - destruct (timedOut st); [apply IH|].
    specialize (IH (mkRunner (output st) (error st) true)). unfold mapIo in IH |- *.
    destruct (runnerLoop timeout1 _ _ events) as [o1 log1],
             (runnerLoop timeout2 _ _ events) as [o2 log2].
    simpl in *. by injection IH as -> ->.
  - unfold mapIo, onClose. simpl. by destruct (timedOut st).
  - done.
Qed.

(** Nor has it on what [executePythonCode] returns and does. *)
Lemma executePythonCode_timeout (env : Env) (code : string) (timeout1 timeout2 : Z)
    (captureOutput : bool) :
  executePythonCode env code timeout1 captureOutput
  = executePythonCode env code timeout2 captureOutput.
Proof.
  unfold executePythonCode, ensureTempDir, writeFile, unlink, runPythonProcess.
  destruct (mkdir_close env) as [exit|]; [|done].
  case_bool_decide; [|done].
  destruct (writeFile_error env) as [message|]; [done|].
  destruct (python_spawn_error env) as [message|]; [done|].
  pose proof (runnerLoop_timeout timeout1 timeout2 captureOutput (python_events env)
                (mkRunner "" "" false)) as Hloop.
  unfold mapIo in Hloop. simpl in Hloop.
  destruct (runnerLoop timeout1 _ _ _) as [[r1|m1|] log1],
           (runnerLoop timeout2 _ _ _) as [[r2|m2|] log2];
    simpl in Hloop; try discriminate Hloop; injection Hloop; intros; subst;
    destruct (unlink_error env); simpl; congruence.
Qed.

(** [executePythonCode] never throws, whatever the types of its
    arguments. *)
Lemma executePythonCodeAny_settles {number} (engine : Any.Engine number) (env : Env)
    (code timeout captureOutput : Any.value number) :
  fst (executePythonCodeAny engine env code timeout captureOutput) = Pending
  \/ exists r,
       fst (executePythonCodeAny engine env code timeout captureOutput) = Resolved r
       /\ AnyResult.code r = code.
Proof.
  assert (Hother : forall message : string,
             let run := tryFinally
               (tryCatch
                  (run! ensureTempDir env "/tmp/avilink-python" in throw message)
                  (fun message => ret (AnyResult.mk code "" (Some message) 0 Status.error)))
               (tryCatch
                  (unlink env (tempFile env))
                  (fun cleanupError =>
                     perform (ConsoleError ("Cleanup error: " +:+ cleanupError)))) in
             fst run = Pending
             \/ exists r, fst run = Resolved r /\ AnyResult.code r = code).
  { intros message. unfold ensureTempDir, unlink.
    destruct (mkdir_close env) as [exit|]; [|by left].
    right. case_bool_decide; destruct (unlink_error env); simpl; eauto. }
  unfold executePythonCodeAny. fold (tempFile env).
  destruct code as [| |b|n|source|elements|properties]; try apply Hother.
  destruct (Any.toString engine timeout) as [typeError|text].
  - unfold ensureTempDir, writeFile, unlink.
    destruct (mkdir_close env) as [exit|]; [|by left].
    right. case_bool_decide; destruct (writeFile_error env), (python_spawn_error env),
      (unlink_error env); simpl; eauto.
  - unfold mapIo.
    pose proof (executePythonCode_code env source 0 (Any.truthy engine captureOutput)) as Hcode.
    pose proof (executePythonCode_not_rejected env source 0 (Any.truthy engine captureOutput))
      as Hnot.
    destruct (executePythonCode env source 0 _) as [[r|message|] log]; simpl in *.
    + right. eexists. split; [done|]. simpl. by destruct (Hcode r eq_refl) as [-> _].
    + by destruct (Hnot message).
    + by left.
Qed.

Lemma logExecutionAny_resolves {number} (engine : Any.Engine number) (env : Env)
    (code : Any.value number) (result : AnyResult.t number) :
  fst (logExecutionAny engine env code result) = Resolved tt.
Proof.
  unfold logExecutionAny, userUpsert.
  destruct code; try by destruct (upsert_error env).
  apply logExecution_resolves.
Qed.

(** X17. The exceptions that leave [execute], for a [parameters] value of
    any type, are all thrown before anything is run: the TypeError of
    the [in] test for a value that is no object, [Missing required
    parameters: code] for an object or array in which [code] is not set,
    the TypeError of the conversion to a string for a [code] without a
    primitive value, and [Code contains potentially unsafe operations]
    for a [code] whose text the pre-filter refuses.  In each case
    nothing has been done to the outside world; every later failure is
    part of a returned result. *)
Theorem execute_rejections {number} (engine : Any.Engine number) (env : Env)
    (parameters : Any.value number) (message : string) :
  fst (executeAny engine env parameters) = Rejected message ->
  let code := Any.property engine "code" parameters Any.Undefined in
  snd (executeAny engine env parameters) = []
  /\ ((Any.isObject parameters = false
       /\ message = Any.inError engine "code" parameters)
      \/ (Any.isObject parameters = true
          /\ Any.missing engine parameters "code" = true
          /\ message = "Missing required parameters: code")
      \/ (Any.isObject parameters = true
          /\ Any.missing engine parameters "code" = false
          /\ Any.toString engine code = inl message)
      \/ (Any.isObject parameters = true
          /\ Any.missing engine parameters "code" = false
          /\ message = "Code contains potentially unsafe operations"
          /\ exists text,
               Any.toString engine code = inr text
               /\ containsUnsafeOperations text = true)).
Proof.
  intros Hrejected code. subst code. revert Hrejected.
  unfold executeAny, measureExecutionTime, validateParametersAny.
  destruct (Any.isObject parameters) eqn:Hobject;
    [|simpl; intros [= <-]; split; [done | by left]].
  rewrite filter_cons, filter_nil.
  destruct (decide (Any.missing engine parameters "code" = true)) as [Hmissing|Hset].
  { simpl. intros [= <-]. split; [done|]. right. by left. }
  apply not_true_is_false in Hset. simpl.
  destruct (Any.toString engine _) as [typeError|text] eqn:Htext.
  { simpl. intros [= <-]. split; [done|]. right. right. by left. }
  destruct (containsUnsafeOperations text) eqn:Hsafe.
  { simpl. intros [= <-]. split; [done|]. right. right. right. eauto 6. }
  destruct (executePythonCodeAny_settles engine env
              (Any.property engine "code" parameters Any.Undefined)
              (Any.property engine "timeout" parameters
                 (Any.Number (Any.numberOfZ engine 30)))
              (Any.property engine "capture_output" parameters (Any.Boolean true)))
    as [Hrun | (r & Hrun & _)];
    destruct (executePythonCodeAny engine env _ _ _) as [o log];
    simpl in Hrun; subst o; [done|].
  pose proof (logExecutionAny_resolves engine env
                (Any.property engine "code" parameters Any.Undefined) r) as Hlog.
  unfold bind at 3. destruct (logExecutionAny engine env _ r) as [o log'].
  simpl in Hlog. subst o. done.
Qed.

Lemma execute_rejections_witness :
  snd (executeAny Node.engine Scenario.idle (Any.Number 5)) = []
  /\ ((Any.isObject (Any.Number 5 : Any.value Z) = false
       /\ "Cannot use 'in' operator to search for 'code' in 5"
          = Any.inError Node.engine "code" (Any.Number 5))
      \/ (Any.isObject (Any.Number 5 : Any.value Z) = true
          /\ Any.missing Node.engine (Any.Number 5) "code" = true
          /\ "Cannot use 'in' operator to search for 'code' in 5"
             = "Missing required parameters: code")
      \/ (Any.isObject (Any.Number 5 : Any.value Z) = true
          /\ Any.missing Node.engine (Any.Number 5) "code" = false
          /\ Any.toString Node.engine
               (Any.property Node.engine "code" (Any.Number 5) Any.Undefined)
             = inl "Cannot use 'in' operator to search for 'code' in 5")
      \/ (Any.isObject (Any.Number 5 : Any.value Z) = true
          /\ Any.missing Node.engine (Any.Number 5) "code" = false
          /\ "Cannot use 'in' operator to search for 'code' in 5"
             = "Code contains potentially unsafe operations"
          /\ exists text,
               Any.toString Node.engine
                 (Any.property Node.engine "code" (Any.Number 5) Any.Undefined)
               = inr text
               /\ containsUnsafeOperations text = true)).
Proof.
  apply (execute_rejections Node.engine Scenario.idle (Any.Number 5)
           "Cannot use 'in' operator to search for 'code' in 5").
  reflexivity.
Defined.

(** On a parameters object that keeps to the schema, the two validations
    agree, for every list of required names. *)
Lemma missing_schema {number} (engine : Any.Engine number) (parameters : Parameters.t)
    (param : string) :
  Any.missing engine (ofParameters engine parameters) param = missing parameters param.
Proof.
  destruct parameters as [code timeout capture_output].
  unfold missing, Any.missing, ofParameters, Any.ownProperty, Any.inherited. simpl.
  destruct (String.eqb_spec param "code") as [->|Hcode];
    [destruct code, timeout, capture_output; reflexivity|].
  destruct (String.eqb_spec param "timeout") as [->|Htimeout];
    [destruct code, timeout, capture_output; reflexivity|].
  destruct (String.eqb_spec param "capture_output") as [->|Hcapture];
    [destruct code, timeout, capture_output; reflexivity|].
  assert (String.eqb "code" param = false) as Hc by (apply String.eqb_neq; congruence).
  assert (String.eqb "timeout" param = false) as Ht by (apply String.eqb_neq; congruence).
  assert (String.eqb "capture_output" param = false) as Ho
    by (apply String.eqb_neq; congruence).
  destruct code, timeout, capture_output; cbn [app JsMap.get];
    rewrite ?Hc, ?Ht, ?Ho; reflexivity.
Qed.

Lemma validateParametersAny_schema {number} (engine : Any.Engine number)
    (parameters : Parameters.t) (required : list string) :
  validateParametersAny engine (ofParameters engine parameters) required
  = inr (validateParameters parameters required).
Proof.
  unfold validateParametersAny, validateParameters. simpl.
  assert (filter (fun param => Any.missing engine (ofParameters engine parameters) param = true)
            required
          = filter (fun param => missing parameters param = true) required) as ->; [|done].
  apply list_filter_iff. intros param. by rewrite missing_schema.
Qed.

(** On a parameters object that keeps to the schema, [executeAny] does
    what [execute] does. *)
Lemma executeAny_schema {number} (engine : Any.Engine number) (env : Env)
    (parameters : Parameters.t) :
  executeAny engine env (ofParameters engine parameters)
  = mapIo AnyToolResult.ofToolResult (execute env parameters).
Proof.
  destruct parameters as [code timeout capture_output].
  destruct code as [| |code]; [by destruct timeout, capture_output..|].
  unfold executeAny, execute, measureExecutionTime, validateParametersAny, validateParameters,
    ofParameters, executePythonCodeAny.
  simpl.
  destruct (containsUnsafeOperations code); [done|].
  assert (Htimeout :
            match Any.toString engine
                    (Any.property engine "timeout"
                       (Any.Object
                          ([("code", Any.Str code)]
                           ++ match timeout with
                              | Absent => []
                              | Undefined => [("timeout", Any.Undefined)]
                              | Value a => [("timeout", Any.Number (Any.numberOfZ engine a))]
                              end
                           ++ match capture_output with
                              | Absent => []
                              | Undefined => [("capture_output", Any.Undefined)]
                              | Value a => [("capture_output", Any.Boolean a)]
                              end))
                       (Any.Number (Any.numberOfZ engine 30))) with
            | inl _ => False
            | inr _ => True
            end)
    by (by destruct timeout, capture_output).
  assert (Hcapture :
            Any.truthy engine
              (Any.property engine "capture_output"
                 (Any.Object
                    ([("code", Any.Str code)]
                     ++ match timeout with
                        | Absent => []
                        | Undefined => [("timeout", Any.Undefined)]
                        | Value a => [("timeout", Any.Number (Any.numberOfZ engine a))]
                        end
                     ++ match capture_output with
                        | Absent => []
                        | Undefined => [("capture_output", Any.Undefined)]
                        | Value a => [("capture_output", Any.Boolean a)]
                        end))
                 (Any.Boolean true))
            = withDefault capture_output true)
    by (by destruct timeout, capture_output).
  simpl in Htimeout, Hcapture.
  destruct (Any.toString engine _) as [typeError|text]; [done|].
  rewrite Hcapture.
  rewrite (executePythonCode_timeout env code 0 (withDefault timeout 30)).
  destruct (executePythonCode env code _ _) as [[r|message|] log]; [|done..].
  unfold mapIo; simpl.
  change (logExecution env code
            (Result.mk code (Result.output r) (Result.error r)
               (Result.execution_time r) (Result.status r)))
    with (logExecution env code r).
  pose proof (logExecution_resolves env code r) as Hlog.
  destruct (logExecution env code r) as [o log']. simpl in Hlog. subst o. done.
Qed.

(** ** The tool registry *)

Section RegistryFacts.
Context {Tool Description Schema : Type}.
Context (name : Tool -> string).
Context (description : Tool -> Description).
Context (parameters : Tool -> Schema).

Lemma get_set (key key' : string) (value : Tool) (m : list (string * Tool)) :
  JsMap.get key (JsMap.set key' value m)
  = if String.eqb key' key then Some value else JsMap.get key m.
Proof.
  induction m as [|[k v] m IH]; simpl.
  - by destruct (String.eqb key' key).
  - destruct (String.eqb k key') eqn:Hk; simpl.
    + apply String.eqb_eq in Hk as ->. by destruct (String.eqb key' key).
    + rewrite IH. destruct (String.eqb k key) eqn:Hkk; [|done].
      apply String.eqb_eq in Hkk as ->.
      destruct (String.eqb key' key) eqn:Hkey; [|done].
      apply String.eqb_eq in Hkey as ->. by rewrite String.eqb_refl in Hk.
Qed.

Lemma get_delete (key key' : string) (m : list (string * Tool)) :
  JsMap.get key (JsMap.delete key' m)
  = if String.eqb key' key then None else JsMap.get key m.
Proof.
  unfold JsMap.delete. induction m as [|[k v] m IH]; simpl.
  - by destruct (String.eqb key' key).
  - destruct (String.eqb k key') eqn:Hk; simpl.
    + apply String.eqb_eq in Hk as ->. rewrite IH. by destruct (String.eqb key' key).
    + rewrite IH. destruct (String.eqb k key) eqn:Hkk; [|done].
      apply String.eqb_eq in Hkk as ->.
      destruct (String.eqb key' key) eqn:Hkey; [|done].
      apply String.eqb_eq in Hkey as ->. by rewrite String.eqb_refl in Hk.
Qed.

Lemma has_keys (key : string) (m : list (string * Tool)) :
  JsMap.has key m = true <-> key ∈ JsMap.keys m.
Proof.
  unfold JsMap.has, JsMap.keys. induction m as [|[k v] m IH]; simpl.
  - rewrite elem_of_nil. by split.
  - rewrite elem_of_cons. destruct (String.eqb k key) eqn:Hk.
    + apply String.eqb_eq in Hk as ->. by split; [left|].
    + apply String.eqb_neq in Hk. rewrite IH. split; [by right | by intros [->|]].
Qed.

Lemma keys_set (key : string) (value : Tool) (m : list (string * Tool)) :
  JsMap.keys (JsMap.set key value m)
  = if JsMap.has key m then JsMap.keys m else JsMap.keys m ++ [key].
Proof.
  unfold JsMap.has, JsMap.keys. induction m as [|[k v] m IH]; simpl; [done|].
  destruct (String.eqb k key) eqn:Hk; simpl.
  - apply String.eqb_eq in Hk as ->. done.
  - rewrite IH. by destruct (JsMap.get key m).
Qed.

Lemma keys_delete (key : string) (m : list (string * Tool)) :
  JsMap.keys (JsMap.delete key m)
  = List.filter (fun k => negb (String.eqb k key)) (JsMap.keys m).
Proof.
  unfold JsMap.delete, JsMap.keys. induction m as [|[k v] m IH]; simpl; [done|].
  destruct (String.eqb k key); simpl; by rewrite IH.
Qed.

Lemma NoDup_keys_set (key : string) (value : Tool) (m : list (string * Tool)) :
  NoDup (JsMap.keys m) -> NoDup (JsMap.keys (JsMap.set key value m)).
Proof.
  intros Hm. rewrite keys_set. destruct (JsMap.has key m) eqn:Hhas; [done|].
  apply NoDup_app. split; [done|]. split; [|apply NoDup_singleton].
  intros k Hk Hin. apply list_elem_of_singleton in Hin as ->.
  apply has_keys in Hk. congruence.
Qed.

Lemma NoDup_keys_delete (key : string) (m : list (string * Tool)) :
  NoDup (JsMap.keys m) -> NoDup (JsMap.keys (JsMap.delete key m)).
Proof.
  intros Hm. rewrite keys_delete.
  induction Hm as [|k ks Hk _ IH]; simpl; [constructor|].
  destruct (String.eqb k key); simpl; [done|].
  constructor; [|done]. intros Hin. apply Hk.
  apply list_elem_of_In, List.filter_In in Hin as [Hin _]. by apply list_elem_of_In.
Qed.

Lemma namedByTool_register (tool : Tool) (m : list (string * Tool)) :
  ToolRegistry.namedByTool name m -> ToolRegistry.namedByTool name (ToolRegistry.registerTool name tool m).
Proof.
  intros Hm key t. unfold ToolRegistry.registerTool. rewrite get_set.
  destruct (String.eqb (name tool) key) eqn:Hk; [|apply Hm].
  apply String.eqb_eq in Hk. by intros [= <-].
Qed.

Lemma namedByTool_unregister (toolName : string) (m : list (string * Tool)) :
  ToolRegistry.namedByTool name m -> ToolRegistry.namedByTool name (ToolRegistry.unregisterTool toolName m).
Proof.
  intros Hm key t. unfold ToolRegistry.unregisterTool. rewrite get_delete.
  destruct (String.eqb toolName key); [done | apply Hm].
Qed.

Lemma registerBuiltinTools_invariant (builtinTools : list Tool) (m : list (string * Tool)) :
  NoDup (JsMap.keys m) /\ ToolRegistry.namedByTool name m ->
  NoDup (JsMap.keys (ToolRegistry.registerBuiltinTools name builtinTools m))
  /\ ToolRegistry.namedByTool name (ToolRegistry.registerBuiltinTools name builtinTools m).
Proof.
  revert m. induction builtinTools as [|tool tools IH]; intros m [Hdup Hnamed]; [done|].
  apply IH. split; [by apply NoDup_keys_set | by apply namedByTool_register].
Qed.

(** X21. Whatever tools a registry is built with and whatever is registered
    and unregistered afterwards, it lists every name once, and it hands
    out under a name only a tool of that name. *)
Theorem registry_invariant (builtinTools : list Tool) (calls : list (ToolRegistry.call (Tool:=Tool))) :
  NoDup (ToolRegistry.listTools (ToolRegistry.after name builtinTools calls))
  /\ forall toolName tool,
       ToolRegistry.getTool toolName (ToolRegistry.after name builtinTools calls) = Some tool ->
       name tool = toolName.
Proof.
  unfold ToolRegistry.after, ToolRegistry.create, ToolRegistry.listTools, ToolRegistry.getTool.
  assert (Hstart : NoDup (JsMap.keys (ToolRegistry.registerBuiltinTools name builtinTools []))
                   /\ ToolRegistry.namedByTool name (ToolRegistry.registerBuiltinTools name builtinTools [])).
  { apply registerBuiltinTools_invariant. split; [constructor | done]. }
  revert Hstart. generalize (ToolRegistry.registerBuiltinTools name builtinTools []).
  induction calls as [|c calls IH]; intros m [Hdup Hnamed]; [done|].
  apply IH. destruct c as [tool|toolName]; simpl.
  - split; [by apply NoDup_keys_set | by apply namedByTool_register].
  - split; [by apply NoDup_keys_delete | by apply namedByTool_unregister].
Qed.

(** X22. Looking a tool up after a registration or a removal: the registered
    tool is found under its name and replaces what was there, the
    removed name is not found, and every other name is untouched. *)
Theorem registry_lookup (tool : Tool) (toolName other : string) (tools : list (string * Tool)) :
  ToolRegistry.getTool other (ToolRegistry.registerTool name tool tools)
  = (if String.eqb (name tool) other then Some tool else ToolRegistry.getTool other tools)
  /\ ToolRegistry.getTool other (ToolRegistry.unregisterTool toolName tools)
     = (if String.eqb toolName other then None else ToolRegistry.getTool other tools).
Proof. split; [apply get_set | apply get_delete]. Qed.

(** X23. The queries of a registry agree with each other: a name is reported
    as present exactly when it is listed, and exactly when a tool is
    found under it; the count is the length of the list of names and of
    the list of descriptions. *)
Theorem registry_queries (toolName : string) (tools : list (string * Tool)) :
  (ToolRegistry.hasTool toolName tools = true <-> toolName ∈ ToolRegistry.listTools tools)
  /\ (ToolRegistry.hasTool toolName tools = true
      <-> is_Some (ToolRegistry.getTool toolName tools))
  /\ ToolRegistry.getToolCount tools = length (ToolRegistry.listTools tools)
  /\ ToolRegistry.getToolCount tools
     = length (ToolRegistry.getAvailableTools name description parameters tools).
Proof.
  split; [apply has_keys|]. split.
  - unfold ToolRegistry.hasTool, ToolRegistry.getTool, JsMap.has.
    destruct (JsMap.get toolName tools); split; try done; try (by intros [? ?]); eauto.
  - unfold ToolRegistry.getToolCount, ToolRegistry.listTools, ToolRegistry.getAvailableTools,
      JsMap.size, JsMap.keys, JsMap.values.
    by rewrite !length_map.
Qed.

(** X24. Registering a tool under a name that is taken keeps the list of
    names, and the count, as they are; under a new name the name goes to
    the end of the list. *)
Theorem registry_register (tool : Tool) (tools : list (string * Tool)) :
  ToolRegistry.listTools (ToolRegistry.registerTool name tool tools)
  = if ToolRegistry.hasTool (name tool) tools
    then ToolRegistry.listTools tools
    else ToolRegistry.listTools tools ++ [name tool].
Proof. apply keys_set. Qed.

Lemma registerBuiltinTools_keys (builtinTools : list Tool) (m : list (string * Tool)) :
  NoDup (JsMap.keys m ++ map name builtinTools) ->
  JsMap.keys (ToolRegistry.registerBuiltinTools name builtinTools m)
  = JsMap.keys m ++ map name builtinTools.
Proof.
  revert m. induction builtinTools as [|tool tools IH]; intros m Hdup; simpl.
  - by rewrite app_nil_r.
  - assert (Hfresh : JsMap.has (name tool) m = false).
    { apply not_true_is_false. rewrite has_keys. intros Hin.
      apply NoDup_app in Hdup as (_ & Hdisjoint & _).
      apply (Hdisjoint _ Hin). apply elem_of_cons. by left. }
    rewrite IH; rewrite keys_set, Hfresh, <- ?app_assoc; done.
Qed.

(** X25. A registry built from tools with different names lists them in the
    order in which they were given, and finds each of them. *)
Theorem registry_create (builtinTools : list Tool) :
  NoDup (map name builtinTools) ->
  ToolRegistry.listTools (ToolRegistry.create name builtinTools) = map name builtinTools
  /\ forall tool,
       tool ∈ builtinTools ->
       ToolRegistry.getTool (name tool) (ToolRegistry.create name builtinTools) = Some tool.
Proof.
  intros Hdup. unfold ToolRegistry.create, ToolRegistry.listTools, ToolRegistry.getTool.
  split; [by apply (registerBuiltinTools_keys builtinTools [])|].
  assert (Hfound : forall tools m tool,
             NoDup (map name tools) -> tool ∈ tools ->
             JsMap.get (name tool) (ToolRegistry.registerBuiltinTools name tools m) = Some tool).
  { clear Hdup. induction tools as [|t tools IH]; intros m tool Hdup Hin.
    - by apply elem_of_nil in Hin.
    - simpl in Hdup. apply NoDup_cons in Hdup as [Hfresh Hdup].
      apply elem_of_cons in Hin as [-> | Hin]; [|by apply IH].
      simpl. clear IH. revert m.
      assert (Hkeep : forall tools' m,
                 name t ∉ map name tools' ->
                 JsMap.get (name t) m = Some t ->
                 JsMap.get (name t) (ToolRegistry.registerBuiltinTools name tools' m) = Some t).
      { induction tools' as [|t' tools' IH']; intros m Hnot Hm; [done|].
        simpl. apply IH'.
        - intros Hin. apply Hnot. simpl. apply elem_of_cons. by right.
        - rewrite get_set. destruct (String.eqb (name t') (name t)) eqn:Hn; [|done].
          apply String.eqb_eq in Hn. exfalso. apply Hnot. simpl. apply elem_of_cons. by left. }
      intros m. apply Hkeep; [done|]. by rewrite get_set, String.eqb_refl. }
  intros tool Hin. by apply Hfound.
Qed.

End RegistryFacts.

Lemma registry_create_witness :
  ToolRegistry.listTools
    (ToolRegistry.create (fun tool : string => tool)
       ["deep_search"; "python_execution"; "file_processing"; "web_browsing"])
  = map (fun tool : string => tool)
      ["deep_search"; "python_execution"; "file_processing"; "web_browsing"]
  /\ forall tool,
       tool ∈ ["deep_search"; "python_execution"; "file_processing"; "web_browsing"] ->
       ToolRegistry.getTool tool
         (ToolRegistry.create (fun tool : string => tool)
            ["deep_search"; "python_execution"; "file_processing"; "web_browsing"])
       = Some tool.
Proof.
  apply (registry_create (fun tool : string => tool)
           ["deep_search"; "python_execution"; "file_processing"; "web_browsing"]).
  repeat (apply NoDup_cons; split; [intros Hin; log_absent Hin|]). constructor.
Defined.

(** ** The tools endpoint *)

Section RouteFacts.
Context {P R : Type}.

(** X26. The handler never throws.  When it answers, the status is 200, 400,
    404 or 500; it is 200 exactly when the body carries the result of
    the tool; and with 400 or 404 nothing was done to the outside
    world. *)
Theorem post_response (tools : list (string * Tool.t P R)) (messageError : option string)
    (body : Body P) :
  match Route.POST tools messageError body with
  | (Resolved response, log) =>
      (Response.status response = 200 \/ Response.status response = 400
       \/ Response.status response = 404 \/ Response.status response = 500)
      /\ (Response.status response = 200
          <-> exists result, Response.body response = ResultBody result)
      /\ (Response.status response = 400 \/ Response.status response = 404 -> log = [])
  | (Rejected _, _) => False
  | (Pending, _) => True
  end.
Proof.
  unfold Route.POST, Route.caught.
  destruct body as [message|request]; simpl.
  { split; [auto|]. split; [by split; [|intros [? ?]] | by intros [|]]. }
  destruct (Request.toolName request) as [toolName|], (Request.parameters request) as [parameters|];
    simpl;
    try (split; [auto|]; split; [by split; [|intros [? ?]] | done]).
  destruct (Js.isEmpty toolName); simpl;
    [split; [auto|]; split; [by split; [|intros [? ?]] | done]|].
  destruct (ToolRegistry.getTool toolName tools) as [tool|]; simpl;
    [|split; [auto|]; split; [by split; [|intros [? ?]] | done]].
  destruct (Tool.execute tool parameters) as [[result|message|] log]; simpl; [| |done].
  - destruct (Js.falsy (Request.conversationId request)); simpl.
    + split; [auto|]. split; [by split; [eauto|] | by intros [|]].
    + destruct messageError as [message|]; simpl.
      * split; [auto|]. split; [by split; [|intros [? ?]] | by intros [|]].
      * split; [auto|]. split; [by split; [eauto|] | by intros [|]].
  - split; [auto|]. split; [by split; [|intros [? ?]] | by intros [|]].
Qed.

(** A request without a tool name, with the empty tool name, or without
    parameters is answered with 400 before the registry is consulted. *)
Theorem post_bad_request (tools : list (string * Tool.t P R)) (messageError : option string)
    (request : Request.t P) :
  Js.falsy (Request.toolName request) = true \/ Request.parameters request = None ->
  Route.POST tools messageError (Parsed request)
  = (Resolved (Response.mk 400 (ErrorBody "Tool name and parameters are required" None)), []).
Proof.
  unfold Route.POST.
  destruct (Request.toolName request) as [[|c toolName]|],
    (Request.parameters request) as [parameters|]; simpl; try done.
  by intros [|].
Qed.

(** A request for a name that the registry does not know is answered
    with 404 and the name, and no tool is run. *)
Theorem post_not_found (tools : list (string * Tool.t P R)) (messageError : option string)
    (request : Request.t P) (toolName : string) (parameters : P) :
  Request.toolName request = Some toolName ->
  Js.isEmpty toolName = false ->
  Request.parameters request = Some parameters ->
  ToolRegistry.hasTool toolName tools = false ->
  Route.POST tools messageError (Parsed request)
  = (Resolved (Response.mk 404 (ErrorBody ("Tool '" +:+ toolName +:+ "' not found") None)), []).
Proof.
  intros Hname Hne Hparams Hhas. unfold Route.POST. rewrite Hname, Hparams, Hne.
  unfold ToolRegistry.hasTool, JsMap.has, ToolRegistry.getTool in *.
  by destruct (JsMap.get toolName tools).
Qed.

(** X27. An exception of the tool becomes a 500 answer that carries the
    message as its details; what the tool had done until then stays
    done, and the error is written to the console. *)
Theorem post_tool_exception (tools : list (string * Tool.t P R)) (messageError : option string)
    (request : Request.t P) (toolName : string) (parameters : P) (tool : Tool.t P R)
    (message : string) (log : list effect) :
  Request.toolName request = Some toolName ->
  Js.isEmpty toolName = false ->
  Request.parameters request = Some parameters ->
  ToolRegistry.getTool toolName tools = Some tool ->
  Tool.execute tool parameters = (Rejected message, log) ->
  Route.POST tools messageError (Parsed request)
  = (Resolved (Response.mk 500 (ErrorBody "Failed to execute tool" (Some message))),
     map Performed log ++ [Performed (ConsoleError ("Tool execution error: " +:+ message))]).
Proof.
  intros Hname Hne Hparams Htool Hexec. unfold Route.POST.
  by rewrite Hname, Hparams, Hne, Htool, Hexec.
Qed.

(** X28. When the tool has returned its result but the message for the
    conversation cannot be stored, the answer is 500 with the storage
    error as details: the result is not sent, although everything the
    tool did has been done. *)
Theorem post_message_failure (tools : list (string * Tool.t P R)) (failure : string)
    (request : Request.t P) (toolName conversationId : string) (parameters : P)
    (tool : Tool.t P R) (result : R) (log : list effect) :
  Request.toolName request = Some toolName ->
  Js.isEmpty toolName = false ->
  Request.parameters request = Some parameters ->
  Request.conversationId request = Some conversationId ->
  Js.isEmpty conversationId = false ->
  ToolRegistry.getTool toolName tools = Some tool ->
  Tool.execute tool parameters = (Resolved result, log) ->
  Route.POST tools (Some failure) (Parsed request)
  = (Resolved (Response.mk 500 (ErrorBody "Failed to execute tool" (Some failure))),
     map Performed log
     ++ [MessageCreate conversationId toolName parameters result;
         Performed (ConsoleError ("Tool execution error: " +:+ failure))]).
Proof.
  intros Hname Hne Hparams Hconv Hc Htool Hexec. unfold Route.POST, Route.caught.
  rewrite Hname, Hparams, Hne, Htool, Hexec, Hconv. simpl. rewrite Hc. simpl.
  by rewrite <- app_assoc.
Qed.

End RouteFacts.

Lemma post_bad_request_witness :
  Route.POST (Sample.registry Scenario.prompt) None (Parsed (Sample.call "" "x = 1" None))
  = (Resolved (Response.mk 400 (ErrorBody "Tool name and parameters are required" None)), []).
Proof.
  apply (post_bad_request (Sample.registry Scenario.prompt) None (Sample.call "" "x = 1" None)).
  left. reflexivity.
Defined.

Lemma post_not_found_witness :
  Route.POST (Sample.registry Scenario.prompt) None
    (Parsed (Sample.call "calculator" "x = 1" None))
  = (Resolved (Response.mk 404 (ErrorBody ("Tool '" +:+ "calculator" +:+ "' not found") None)),
     []).
Proof.
  apply (post_not_found (Sample.registry Scenario.prompt) None
           (Sample.call "calculator" "x = 1" None) "calculator" (Scenario.request "x = 1")).
  - reflexivity.
  - reflexivity.
  - reflexivity.
  - reflexivity.
Defined.

Lemma post_tool_exception_witness :
  Route.POST (Sample.registry Scenario.prompt) None
    (Parsed (Sample.call "python_execution" "import os" None))
  = (Resolved (Response.mk 500
                 (ErrorBody "Failed to execute tool"
                    (Some "Code contains potentially unsafe operations"))),
     map Performed []
     ++ [Performed (ConsoleError ("Tool execution error: "
                                  +:+ "Code contains potentially unsafe operations"))]).
Proof.
  apply (post_tool_exception (Sample.registry Scenario.prompt) None
           (Sample.call "python_execution" "import os" None) "python_execution"
           (Scenario.request "import os") (pythonExecutionTool Scenario.prompt)).
  - reflexivity.
  - reflexivity.
  - reflexivity.
  - reflexivity.
  - reflexivity.
Defined.

Lemma post_message_failure_witness :
  Route.POST (Sample.registry Scenario.prompt) (Some "database is down")
    (Parsed (Sample.call "python_execution" "x = 1" (Some "c1")))
  = (Resolved (Response.mk 500 (ErrorBody "Failed to execute tool" (Some "database is down"))),
     map Performed (snd (execute Scenario.prompt (Scenario.request "x = 1")))
     ++ [MessageCreate "c1" "python_execution" (Scenario.request "x = 1")
           (ToolResult.mk true (Result.mk "x = 1" "" None 1003 Status.success) None 1010);
         Performed (ConsoleError ("Tool execution error: " +:+ "database is down"))]).
Proof.
  apply (post_message_failure (Sample.registry Scenario.prompt) "database is down"
           (Sample.call "python_execution" "x = 1" (Some "c1")) "python_execution" "c1"
           (Scenario.request "x = 1") (pythonExecutionTool Scenario.prompt)).
  - reflexivity.
  - reflexivity.
  - reflexivity.
  - reflexivity.
  - reflexivity.
  - reflexivity.
  - reflexivity.
Defined.

(** ** What a result looks like *)

Lemma trimStart_head (s : string) :
  Js.trimStart s = "" \/ exists c t, Js.trimStart s = String c t /\ Js.isWhiteSpace c = false.
Proof.
  induction s as [|c s IH]; [by left|]. simpl.
  destruct (Js.isWhiteSpace c) eqn:Hc; [done|]. right. eauto.
Qed.

Lemma trimEnd_idempotent (s : string) : Js.trimEnd (Js.trimEnd s) = Js.trimEnd s.
Proof.
  induction s as [|c s IH]; [done|]. simpl.
  destruct (Js.isWhiteSpace c && Js.isEmpty (Js.trimEnd s)) eqn:Hc; [done|].
  simpl. by rewrite IH, Hc.
Qed.

Lemma trim_idempotent (s : string) : Js.trim (Js.trim s) = Js.trim s.
Proof.
  unfold Js.trim.
  destruct (trimStart_head s) as [-> | (c & t & -> & Hc)]; [done|].
  do 4 (simpl; rewrite ?Hc).
  by rewrite trimEnd_idempotent.
Qed.

(** X29. What the extraction routines return is trimmed: the output, and the
    error when there is one, have no white space at either end. *)
Theorem parsed_text_is_trimmed (text : string) :
  Js.trim (parseOutput text) = parseOutput text
  /\ forall segment, parseError text = Some segment -> Js.trim segment = segment.
Proof.
  unfold parseOutput, parseError, Js.orNull. split.
  - repeat case_match; apply trim_idempotent.
  - intros segment. repeat case_match; intros [= <-]; apply trim_idempotent.
Qed.

(** X30. Every result that [executePythonCode] returns is consistent: with
    status [success] the error is null, and with status [timeout] the
    output is empty and the error is [Execution timed out]. *)
Theorem result_invariant (env : Env) (code : string) (timeout : Z) (captureOutput : bool)
    (r : PythonExecutionResult) :
  fst (executePythonCode env code timeout captureOutput) = Resolved r ->
  (Result.status r = Status.success -> Result.error r = None)
  /\ (Result.status r = Status.timeout ->
      Result.output r = "" /\ Result.error r = Some "Execution timed out").
Proof.
  unfold executePythonCode, ensureTempDir, writeFile, unlink. fold (tempFile env).
  destruct (mkdir_close env) as [exit|]; [|done].
  case_bool_decide.
  - destruct (writeFile_error env) as [failure|].
    + by destruct (unlink_error env); simpl; intros [= <-].
    + pose proof (runPythonProcess_settles env (tempFile env) timeout captureOutput) as Hrun.
      destruct (runPythonProcess env (tempFile env) timeout captureOutput)
        as [[r0|failure|] log]; simpl in Hrun; [| |done].
      * assert (Hr0 : (Result.status r0 = Status.success -> Result.error r0 = None)
                      /\ (Result.status r0 = Status.timeout ->
                          Result.output r0 = ""
                          /\ Result.error r0 = Some "Execution timed out")).
        { destruct (python_spawn_error env); [done|].
          destruct (settling (python_events env)) as [[data|data| |status|failure]|];
            try done; injection Hrun as ->; [|done].
          unfold onClose. simpl.
          destruct (deadlineFired (python_events env)); [done|]. simpl.
          destruct (Js.falsy (parseError _)).
          - by case_bool_decide.
          - by rewrite andb_false_r. }
        by destruct (unlink_error env); simpl; intros [= <-].
      * by destruct (unlink_error env); simpl; intros [= <-].
  - by destruct (unlink_error env); simpl; intros [= <-].
Qed.

Lemma result_invariant_witness :
  (Result.status (Result.mk "x = 1" "" (Some "Execution timed out") 1003 Status.timeout)
   = Status.success ->
   Result.error (Result.mk "x = 1" "" (Some "Execution timed out") 1003 Status.timeout) = None)
  /\ (Result.status (Result.mk "x = 1" "" (Some "Execution timed out") 1003 Status.timeout)
      = Status.timeout ->
      Result.output (Result.mk "x = 1" "" (Some "Execution timed out") 1003 Status.timeout) = ""
      /\ Result.error (Result.mk "x = 1" "" (Some "Execution timed out") 1003 Status.timeout)
         = Some "Execution timed out").
Proof.
  apply (result_invariant Scenario.slow "x = 1" 1 true
           (Result.mk "x = 1" "" (Some "Execution timed out") 1003 Status.timeout)).
  reflexivity.
Defined.
